(** * Vehicle-health dashboard: orchestration of the result pipeline

    A shallow embedding of the client-side orchestration code of the
    predictive-maintenance dashboard:

    - [Dashboard]  : the Dashboard component (analysis, SMS alert, PDF
                     upload guard, e-mail button);
    - [Insights]   : the DegradationContributors component (AI-insight
                     fetch) and the two [parseInsights] functions;
    - [Chatbot]    : the chat panel and its initialisation guard;
    - [Workshops]  : the geolocation request of NearbyWorkshops;
    - [JsonRef]    : a reader for JSON texts, to run the parser on examples;
    - [Encoder]    : the feature encoder.

    React components are modelled as state machines.  A state holds the
    values of the [useState]/[useRef] cells the handlers read or write; an
    event is a user action or the settlement of a promise the component
    awaits; [step] runs the handler and then the effects whose dependency
    arrays changed, in declaration order.  Every call to a network
    collaborator is appended to a promise table, so that theorems can count
    the calls. *)

From Stdlib Require Import ZArith NArith QArith List Ascii String Bool Lia.
From stdpp Require Import base option list gmap strings.
Import ListNotations.

Local Open Scope string_scope.

(** ** JavaScript values used by several components *)

(** A value of type "string or null/undefined". *)
Definition truthy (v : option string) : bool :=
  match v with
  | Some s => negb (String.eqb s "")
  | None => false
  end.

(** [v || d] on such a value. *)
Definition or_default (v : option string) (d : string) : string :=
  if truthy v then default d v else d.

(** A JSON number or a missing field; [x || 0]. *)
Definition num_or_zero (x : option Q) : Q :=
  match x with
  | Some q => q
  | None => 0%Q
  end.

(** JavaScript strings whose characters matter ([includes], [replace],
    [trim]) are sequences of UTF-16 code units. *)
Definition jsstring := list N.

Definition js (s : string) : jsstring :=
  map (fun a => N_of_ascii a) (list_ascii_of_string s).

(** ECMAScript WhiteSpace and LineTerminator code units, as [trim] strips
    them. *)
Definition is_ws (c : N) : bool :=
  ((9 <=? c) && (c <=? 13) || (c =? 32) || (c =? 160) || (c =? 5760)
   || (8192 <=? c) && (c <=? 8202) || (c =? 8232) || (c =? 8233)
   || (c =? 8239) || (c =? 8287) || (c =? 12288) || (c =? 65279))%N.

Fixpoint trim_start (s : jsstring) : jsstring :=
  match s with
  | c :: r => if is_ws c then trim_start r else s
  | [] => []
  end.

(** [s.trim()] *)
Definition trim (s : jsstring) : jsstring :=
  rev (trim_start (rev (trim_start s))).

(** What an awaited collaborator call settles with: the response body
    [{success, message}] or a thrown [Error(message)]. *)
Inductive SendOutcome :=
| SendResult (success : bool) (message : option string)
| SendThrew (message : option string).

(** ** The Dashboard component *)

Module Dashboard.

Record Kpis := {
  failure_probability : option Q;
  remaining_useful_life : option Q
}.

(** The [data] object of a prediction response; only the fields the
    handlers read are kept. *)
Record PredictionData := {
  kpis : option Kpis
}.

(** A prediction held in state: the response object together with its
    identity (React compares dependencies with [Object.is]). *)
Record Prediction := {
  pred_id : nat;
  pred_data : PredictionData
}.

Record UploadStatus := {
  uploading : bool;
  uploaded : bool;
  url : option string
}.

Record SmsStatus := {
  open : bool;
  success : bool;
  message : string
}.

(** Calls to collaborators. *)
Inductive Call :=
| Predict
| SendAlert (phone : string) (failureProb : Q) (rul : Q) (severity : string)
| GeneratePdf (pred : nat) (insights : string)
| UploadPdf (pred : nat)
| SendReportEmail (email : string) (pdfUrl : string).

Record State := {
  phoneNumber : string;
  smsStatus : SmsStatus;
  prediction : option Prediction;
  loading : bool;
  error : option string;
  aiInsights : option string;
  pdfUploadStatus : UploadStatus;
  pdfUploadTriggered : bool;
  emailSending : bool;
  emailSent : bool;
  (** promise table: every collaborator call, and whether it has settled *)
  promises : list (Call * bool);
  (** identity given to the next response object *)
  next_obj : nat
}.

Definition DEFAULT_EMAIL : string := "kunalkharat2004@gmail.com".

Definition status_initial : UploadStatus :=
  {| uploading := false; uploaded := false; url := None |}.

Definition init : State := {|
  phoneNumber := "";
  smsStatus := {| open := false; success := false; message := "" |};
  prediction := None;
  loading := false;
  error := None;
  aiInsights := None;
  pdfUploadStatus := status_initial;
  pdfUploadTriggered := false;
  emailSending := false;
  emailSent := false;
  promises := [];
  next_obj := 0
|}.

(** *** State setters *)

Definition set_phoneNumber (v : string) (s : State) : State :=
  {| phoneNumber := v; smsStatus := smsStatus s; prediction := prediction s;
     loading := loading s; error := error s; aiInsights := aiInsights s;
     pdfUploadStatus := pdfUploadStatus s;
     pdfUploadTriggered := pdfUploadTriggered s;
     emailSending := emailSending s; emailSent := emailSent s;
     promises := promises s; next_obj := next_obj s |}.

Definition set_smsStatus (v : SmsStatus) (s : State) : State :=
  {| phoneNumber := phoneNumber s; smsStatus := v; prediction := prediction s;
     loading := loading s; error := error s; aiInsights := aiInsights s;
     pdfUploadStatus := pdfUploadStatus s;
     pdfUploadTriggered := pdfUploadTriggered s;
     emailSending := emailSending s; emailSent := emailSent s;
     promises := promises s; next_obj := next_obj s |}.

Definition set_prediction (d : option PredictionData) (s : State) : State :=
  {| phoneNumber := phoneNumber s; smsStatus := smsStatus s;
     prediction :=
       match d with
       | Some d => Some {| pred_id := next_obj s; pred_data := d |}
       | None => None
       end;
     loading := loading s; error := error s; aiInsights := aiInsights s;
     pdfUploadStatus := pdfUploadStatus s;
     pdfUploadTriggered := pdfUploadTriggered s;
     emailSending := emailSending s; emailSent := emailSent s;
     promises := promises s; next_obj := S (next_obj s) |}.

Definition set_loading (v : bool) (s : State) : State :=
  {| phoneNumber := phoneNumber s; smsStatus := smsStatus s;
     prediction := prediction s;
     loading := v; error := error s; aiInsights := aiInsights s;
     pdfUploadStatus := pdfUploadStatus s;
     pdfUploadTriggered := pdfUploadTriggered s;
     emailSending := emailSending s; emailSent := emailSent s;
     promises := promises s; next_obj := next_obj s |}.

Definition set_error (v : option string) (s : State) : State :=
  {| phoneNumber := phoneNumber s; smsStatus := smsStatus s;
     prediction := prediction s;
     loading := loading s; error := v; aiInsights := aiInsights s;
     pdfUploadStatus := pdfUploadStatus s;
     pdfUploadTriggered := pdfUploadTriggered s;
     emailSending := emailSending s; emailSent := emailSent s;
     promises := promises s; next_obj := next_obj s |}.

Definition set_aiInsights (v : option string) (s : State) : State :=
  {| phoneNumber := phoneNumber s; smsStatus := smsStatus s;
     prediction := prediction s;
     loading := loading s; error := error s; aiInsights := v;
     pdfUploadStatus := pdfUploadStatus s;
     pdfUploadTriggered := pdfUploadTriggered s;
     emailSending := emailSending s; emailSent := emailSent s;
     promises := promises s; next_obj := next_obj s |}.

Definition set_pdfUploadStatus (v : UploadStatus) (s : State) : State :=
  {| phoneNumber := phoneNumber s; smsStatus := smsStatus s;
     prediction := prediction s;
     loading := loading s; error := error s; aiInsights := aiInsights s;
     pdfUploadStatus := v;
     pdfUploadTriggered := pdfUploadTriggered s;
     emailSending := emailSending s; emailSent := emailSent s;
     promises := promises s; next_obj := next_obj s |}.

Definition set_pdfUploadTriggered (v : bool) (s : State) : State :=
  {| phoneNumber := phoneNumber s; smsStatus := smsStatus s;
     prediction := prediction s;
     loading := loading s; error := error s; aiInsights := aiInsights s;
     pdfUploadStatus := pdfUploadStatus s;
     pdfUploadTriggered := v;
     emailSending := emailSending s; emailSent := emailSent s;
     promises := promises s; next_obj := next_obj s |}.

Definition set_emailSending (v : bool) (s : State) : State :=
  {| phoneNumber := phoneNumber s; smsStatus := smsStatus s;
     prediction := prediction s;
     loading := loading s; error := error s; aiInsights := aiInsights s;
     pdfUploadStatus := pdfUploadStatus s;
     pdfUploadTriggered := pdfUploadTriggered s;
     emailSending := v; emailSent := emailSent s;
     promises := promises s; next_obj := next_obj s |}.

Definition set_emailSent (v : bool) (s : State) : State :=
  {| phoneNumber := phoneNumber s; smsStatus := smsStatus s;
     prediction := prediction s;
     loading := loading s; error := error s; aiInsights := aiInsights s;
     pdfUploadStatus := pdfUploadStatus s;
     pdfUploadTriggered := pdfUploadTriggered s;
     emailSending := emailSending s; emailSent := v;
     promises := promises s; next_obj := next_obj s |}.

Definition set_promises (v : list (Call * bool)) (s : State) : State :=
  {| phoneNumber := phoneNumber s; smsStatus := smsStatus s;
     prediction := prediction s;
     loading := loading s; error := error s; aiInsights := aiInsights s;
     pdfUploadStatus := pdfUploadStatus s;
     pdfUploadTriggered := pdfUploadTriggered s;
     emailSending := emailSending s; emailSent := emailSent s;
     promises := v; next_obj := next_obj s |}.

(** Issue a collaborator call: a new, unsettled entry of the promise table. *)
Definition call (c : Call) (s : State) : State :=
  set_promises (promises s ++ [(c, false)]) s.

(** Mark promise [h] as settled. *)
Definition settle (h : nat) (s : State) : State :=
  set_promises (alter (fun p => (p.1, true)) h (promises s)) s.

(** The call awaited under handle [h], if it has not settled yet. *)
Definition awaiting (h : nat) (s : State) : option Call :=
  match promises s !! h with
  | Some (c, false) => Some c
  | _ => None
  end.

(** *** sendSmsAlert *)

(** The severity classification inside [sendSmsAlert]. *)
Definition severity_of (failureProb : Q) : string :=
  if Qle_bool 70 failureProb then "critical"
  else if Qle_bool 40 failureProb then "warning"
  else "normal".

Definition kpi_failure_probability (d : PredictionData) : Q :=
  num_or_zero (k ← kpis d; failure_probability k).

Definition kpi_remaining_useful_life (d : PredictionData) : Q :=
  num_or_zero (k ← kpis d; remaining_useful_life k).

Definition sendSmsAlert (predictionData : option PredictionData) (s : State)
  : State :=
  match predictionData with
  | None => s
  | Some d =>
      if String.eqb (phoneNumber s) "" then s
      else
        let failureProb := kpi_failure_probability d in
        call (SendAlert (phoneNumber s) failureProb
                (kpi_remaining_useful_life d) (severity_of failureProb)) s
  end.

(** *** Effects *)

(** First effect, dependencies [[aiInsights, prediction]]: the synchronous
    part of [uploadPDFToCloud], up to the first [await]. *)
Definition effect_upload (s : State) : State :=
  match aiInsights s, prediction s with
  | Some i, Some p =>
      if truthy (Some i) && negb (pdfUploadTriggered s) then
        call (GeneratePdf (pred_id p) i)
          (set_pdfUploadStatus
             {| uploading := true; uploaded := false; url := None |}
             (set_pdfUploadTriggered true s))
      else s
  | _, _ => s
  end.

(** Second effect, dependency [[prediction?.kpis]]. *)
Definition effect_reset (s : State) : State :=
  set_pdfUploadStatus status_initial (set_pdfUploadTriggered false s).

(** Identity of [prediction?.kpis]: the kpis object of a response is as fresh
    as the response. *)
Definition kpis_dep (s : State) : option nat :=
  p ← prediction s;
  match kpis (pred_data p) with
  | Some _ => Some (pred_id p)
  | None => None
  end.

Definition prediction_dep (s : State) : option nat :=
  pred_id <$> prediction s.

(** Run, after a render that replaced [old] by [new], the effects whose
    dependencies changed, in the order the component declares them. *)
Definition commit (old new : State) : State :=
  let s1 :=
    if bool_decide (aiInsights old = aiInsights new)
       && bool_decide (prediction_dep old = prediction_dep new)
    then new else effect_upload new in
  if bool_decide (kpis_dep old = kpis_dep new) then s1 else effect_reset s1.

(** *** Events and handlers *)

Inductive PredictOutcome :=
| PredictResult (success : bool) (data : option PredictionData)
| PredictThrew (message : option string).

Inductive UploadOutcome :=
| UploadResult (success : bool) (url : option string)
| UploadThrew.

(** [AIInsightsUpdate] is a call of [handleAIInsightsUpdate], the callback the
    Dashboard hands to DegradationContributors as [onInsightsUpdate]; a
    [...Settled] event is the settlement of the promise with that handle. *)
Inductive Event :=
| PhoneChange (value : string)
| CloseSmsStatus
| AnalyzeClick
| PredictSettled (h : nat) (r : PredictOutcome)
| SmsSettled (h : nat) (r : SendOutcome)
| AIInsightsUpdate (insights : option string)
| PdfSettled (h : nat) (ok : bool)
| UploadSettled (h : nat) (r : UploadOutcome)
| EmailClick
| EmailSettled (h : nat) (r : SendOutcome).

(** [handleAnalyze], up to [await predictVehicleHealth(features)]. *)
Definition handleAnalyze (s : State) : State :=
  call Predict (set_error None (set_loading true s)).

(** [handleAnalyze], from the [await] on. *)
Definition handleAnalyze_settled (r : PredictOutcome) (s : State) : State :=
  let s1 :=
    match r with
    | PredictResult true data =>
        let s' := set_prediction data s in
        if String.eqb (phoneNumber s') "" then s' else sendSmsAlert data s'
    | PredictResult false _ =>
        set_error (Some "Failed to get prediction. Please try again.") s
    | PredictThrew m =>
        set_error
          (Some (or_default m
                   "An error occurred while analyzing vehicle health.")) s
    end in
  set_loading false s1.

(** [sendSmsAlert], from [await sendAlert(...)] on. *)
Definition sendSmsAlert_settled (phone : string) (r : SendOutcome) (s : State)
  : State :=
  match r with
  | SendResult true _ =>
      set_smsStatus {| open := true; success := true;
                       message := "Alert sent to " ++ phone |} s
  | SendResult false m =>
      set_smsStatus {| open := true; success := false;
                       message := or_default m "Failed to send alert" |} s
  | SendThrew m =>
      set_smsStatus {| open := true; success := false;
                       message := or_default m "Failed to send SMS alert" |} s
  end.

(** [uploadPDFToCloud], after [pdf(pdfDoc).toBlob()] settled: on success the
    blob is read and [uploadPDFToCloudinary] is called. *)
Definition uploadPDF_blob (pred : nat) (ok : bool) (s : State) : State :=
  if ok then call (UploadPdf pred) s
  else set_pdfUploadStatus status_initial s.

(** [reader.onloadend], from [await uploadPDFToCloudinary(...)] on. *)
Definition uploadPDF_settled (r : UploadOutcome) (s : State) : State :=
  match r with
  | UploadResult true u =>
      set_pdfUploadStatus
        {| uploading := false; uploaded := true; url := u |} s
  | UploadResult false _ => set_pdfUploadStatus status_initial s
  | UploadThrew => set_pdfUploadStatus status_initial s
  end.

(** The e-mail button is rendered inside the results block
    ([prediction && !loading]) when [pdfUploadStatus.uploaded], and is
    [disabled={emailSending || emailSent}]. *)
Definition email_button_enabled (s : State) : bool :=
  bool_decide (is_Some (prediction s)) && negb (loading s)
  && uploaded (pdfUploadStatus s)
  && negb (emailSending s || emailSent s).

(** [handleSendEmail], up to [await sendReportEmail(...)]. *)
Definition handleSendEmail (s : State) : State :=
  match url (pdfUploadStatus s) with
  | Some u =>
      if truthy (Some u)
      then call (SendReportEmail DEFAULT_EMAIL u) (set_emailSending true s)
      else s
  | None => s
  end.

(** [handleSendEmail], from the [await] on. *)
Definition handleSendEmail_settled (r : SendOutcome) (s : State) : State :=
  let s1 :=
    match r with
    | SendResult true _ =>
        set_smsStatus {| open := true; success := true;
                         message := "Report sent to " ++ DEFAULT_EMAIL |}
          (set_emailSent true s)
    | SendResult false m =>
        set_smsStatus {| open := true; success := false;
                         message := or_default m "Failed to send email" |} s
    | SendThrew m =>
        set_smsStatus {| open := true; success := false;
                         message := or_default m "Failed to send email" |} s
    end in
  set_emailSending false s1.

(** One event: the handler, without the effects. *)
Definition handle (e : Event) (s : State) : State :=
  match e with
  | PhoneChange v => set_phoneNumber v s
  | CloseSmsStatus =>
      set_smsStatus {| open := false; success := success (smsStatus s);
                       message := message (smsStatus s) |} s
  | AnalyzeClick => if loading s then s else handleAnalyze s
  | PredictSettled h r =>
      match awaiting h s with
      | Some Predict => handleAnalyze_settled r (settle h s)
      | _ => s
      end
  | SmsSettled h r =>
      match awaiting h s with
      | Some (SendAlert phone _ _ _) => sendSmsAlert_settled phone r (settle h s)
      | _ => s
      end
  | AIInsightsUpdate v => set_aiInsights v s
  | PdfSettled h ok =>
      match awaiting h s with
      | Some (GeneratePdf pred _) => uploadPDF_blob pred ok (settle h s)
      | _ => s
      end
  | UploadSettled h r =>
      match awaiting h s with
      | Some (UploadPdf _) => uploadPDF_settled r (settle h s)
      | _ => s
      end
  | EmailClick => if email_button_enabled s then handleSendEmail s else s
  | EmailSettled h r =>
      match awaiting h s with
      | Some (SendReportEmail _ _) => handleSendEmail_settled r (settle h s)
      | _ => s
      end
  end.

Definition step (s : State) (e : Event) : State := commit s (handle e s).

Definition run (s : State) (es : list Event) : State := fold_left step es s.

(** *** Observations on the promise table *)

Definition calls (s : State) : list Call := (promises s).*1.

Definition is_upload_of (p : nat) (c : Call) : bool :=
  match c with
  | UploadPdf q => Nat.eqb p q
  | _ => false
  end.

Definition is_generate_of (p : nat) (c : Call) : bool :=
  match c with
  | GeneratePdf q _ => Nat.eqb p q
  | _ => false
  end.

(** How often the upload collaborator was called for prediction [p]. *)
Definition uploads_of (p : nat) (s : State) : nat :=
  length (List.filter (is_upload_of p) (calls s)).

(** How often the generation/upload step was started for prediction [p]. *)
Definition generations_of (p : nat) (s : State) : nat :=
  length (List.filter (is_generate_of p) (calls s)).

Definition email_of (c : Call) : option string :=
  match c with
  | SendReportEmail _ u => Some u
  | _ => None
  end.

(** The URLs passed to the e-mail collaborator, oldest first. *)
Definition emails (s : State) : list string := omap email_of (calls s).



(** *** Scenarios *)

Definition data_with (failure rul : Q) : option PredictionData :=
  Some {| kpis := Some {| failure_probability := Some failure;
                          remaining_useful_life := Some rul |} |}.


(** One full cycle (analysis, insights, upload, e-mail sent), then a second
    analysis whose report is uploaded, then a click on the e-mail button. *)
Definition trace_first_cycle : list Event :=
  [ AnalyzeClick; PredictSettled 0 (PredictResult true (data_with 75 20));
    AIInsightsUpdate (Some "insights-1");
    PdfSettled 1 true;
    UploadSettled 2 (UploadResult true (Some "https://cdn.example/report-1.pdf"));
    EmailClick; EmailSettled 3 (SendResult true None) ].


(** [predictVehicleHealth] of the API layer rejects with the message of the
    server's response, or with a fixed message when there is none. *)
Definition predictVehicleHealth_rejected (response_message : option string)
  : PredictOutcome :=
  PredictThrew (Some (or_default response_message "Failed to get prediction")).

(** An analysis that did not produce a result. *)
Definition analysis_failed (r : PredictOutcome) : Prop :=
  match r with
  | PredictResult true _ => False
  | PredictResult false _ => True
  | PredictThrew _ => True
  end.

End Dashboard.

(** ** AI insights: DegradationContributors and parseInsights *)

Module Insights.

(** A value produced by [JSON.parse]. *)
#[local] Set Warnings "-register-all".
Inductive json :=
| JNull
| JBool (b : bool)
| JNumber (lexeme : jsstring)
| JString (s : jsstring)
| JArray (items : list json)
| JObject (fields : list (jsstring * json)).

(** [Array.isArray] *)
Definition isArray (v : json) : bool :=
  match v with
  | JArray _ => true
  | _ => false
  end.

(** *** String operations of parseInsights *)

Fixpoint starts_with (pat s : jsstring) : bool :=
  match pat, s with
  | [], _ => true
  | p :: pat', c :: s' => (p =? c)%N && starts_with pat' s'
  | _ :: _, [] => false
  end.

(** [s.includes(pat)] *)
Fixpoint includes (pat s : jsstring) : bool :=
  starts_with pat s
  || match s with
     | _ :: r => includes pat r
     | [] => false
     end.

(** The optional line feed of the pattern "fence, then [\n?]". *)
Definition skip_newline (s : jsstring) : jsstring :=
  match s with
  | c :: r => if (c =? 10)%N then r else s
  | [] => []
  end.

(** Left-to-right scan of a global replace by the empty string: at a match
    the fence and the line feed after it, if any, are dropped and the scan
    resumes behind them. *)
Fixpoint remove_all (pat : jsstring) (fuel : nat) (s : jsstring) : jsstring :=
  match fuel, s with
  | S fuel', c :: r =>
      if starts_with pat s
      then remove_all pat fuel' (skip_newline (drop (length pat) s))
      else c :: remove_all pat fuel' r
  | _, _ => []
  end.

(** [s.replace(/<pat>\n?/g, '')], for a non-empty literal [pat]. *)
Definition replace_fence (pat s : jsstring) : jsstring :=
  remove_all pat (length s) s.

Definition FENCE_JSON : jsstring := js "```json".
Definition FENCE : jsstring := js "```".

(** "Remove markdown code blocks if present". *)
Definition strip_fences (jsonStr : jsstring) : jsstring :=
  if includes FENCE_JSON jsonStr
  then replace_fence FENCE (replace_fence FENCE_JSON jsonStr)
  else if includes FENCE jsonStr
  then replace_fence FENCE jsonStr
  else jsonStr.


Section Parse.

(** [JSON.parse] of the JavaScript runtime; [None] stands for the
    [SyntaxError] it throws. *)
Variable JSON_parse : jsstring -> option json.

(** [parseInsights] of DegradationContributors: the [try] block, with the
    [catch] returning [null]. *)
Definition parseInsights (insightsStr : jsstring) : option (list json) :=
  let jsonStr := trim (strip_fences insightsStr) in
  match JSON_parse jsonStr with
  | Some parsed =>
      match parsed with
      | JArray items => Some items
      | _ => None
      end
  | None => None
  end.


End Parse.

(** *** The DegradationContributors component *)

(** The [contributors] prop: an array with its identity. *)
Record Contributors := {
  contributors_id : nat;
  items : list string
}.

Inductive Call :=
| GetAIInsights (contributors : nat).

Record State := {
  contributors : option Contributors;
  aiInsights : option jsstring;
  loadingInsights : bool;
  insightsError : option string;
  isExpanded : bool;
  promises : list (Call * bool)
}.

Definition set_contributors (v : option Contributors) (s : State) : State :=
  {| contributors := v; aiInsights := aiInsights s;
     loadingInsights := loadingInsights s; insightsError := insightsError s;
     isExpanded := isExpanded s; promises := promises s |}.

Definition set_aiInsights (v : option jsstring) (s : State) : State :=
  {| contributors := contributors s; aiInsights := v;
     loadingInsights := loadingInsights s; insightsError := insightsError s;
     isExpanded := isExpanded s; promises := promises s |}.

Definition set_loadingInsights (v : bool) (s : State) : State :=
  {| contributors := contributors s; aiInsights := aiInsights s;
     loadingInsights := v; insightsError := insightsError s;
     isExpanded := isExpanded s; promises := promises s |}.

Definition set_insightsError (v : option string) (s : State) : State :=
  {| contributors := contributors s; aiInsights := aiInsights s;
     loadingInsights := loadingInsights s; insightsError := v;
     isExpanded := isExpanded s; promises := promises s |}.

Definition set_isExpanded (v : bool) (s : State) : State :=
  {| contributors := contributors s; aiInsights := aiInsights s;
     loadingInsights := loadingInsights s; insightsError := insightsError s;
     isExpanded := v; promises := promises s |}.

Definition set_promises (v : list (Call * bool)) (s : State) : State :=
  {| contributors := contributors s; aiInsights := aiInsights s;
     loadingInsights := loadingInsights s; insightsError := insightsError s;
     isExpanded := isExpanded s; promises := v |}.

Definition call (c : Call) (s : State) : State :=
  set_promises (promises s ++ [(c, false)]) s.

Definition settle (h : nat) (s : State) : State :=
  set_promises (alter (fun p => (p.1, true)) h (promises s)) s.

Definition awaiting (h : nat) (s : State) : option Call :=
  match promises s !! h with
  | Some (c, false) => Some c
  | _ => None
  end.

(** [contributors && contributors.length > 0] *)
Definition has_contributors (s : State) : bool :=
  match contributors s with
  | Some c => negb (Nat.eqb (length (items c)) 0)
  | None => false
  end.

Inductive InsightsOutcome :=
| InsightsResult (success : bool) (insights : option jsstring)
    (message : option string)
| InsightsThrew (message : option string).

(** [fetchAIInsights], up to [await getAIInsights(...)]. *)
Definition fetchAIInsights (s : State) : State :=
  match contributors s with
  | Some c =>
      if Nat.eqb (length (items c)) 0 then s
      else call (GetAIInsights (contributors_id c))
             (set_insightsError None (set_loadingInsights true s))
  | None => s
  end.

(** [fetchAIInsights], from the [await] on. *)
Definition fetchAIInsights_settled (r : InsightsOutcome) (s : State) : State :=
  let s1 :=
    match r with
    | InsightsResult true (Some (c :: i)) _ => set_aiInsights (Some (c :: i)) s
    | InsightsResult _ _ m =>
        set_insightsError (Some (or_default m "Failed to generate insights")) s
    | InsightsThrew m =>
        set_insightsError (Some (or_default m "Failed to fetch AI insights")) s
    end in
  set_loadingInsights false s1.

Inductive Event :=
| PropsChange (contributors : option Contributors)
| RefreshClick
| ToggleExpand
| InsightsSettled (h : nat) (r : InsightsOutcome).

(** "Auto-fetch insights when contributors change": the effect with
    dependency [[contributors]]. *)
Definition effect_fetch (s : State) : State :=
  if has_contributors s then fetchAIInsights s else s.

Definition contributors_dep (s : State) : option nat :=
  contributors_id <$> contributors s.

Definition commit (old new : State) : State :=
  if bool_decide (contributors_dep old = contributors_dep new) then new
  else effect_fetch new.

(** The refresh button is rendered when there are contributors and is
    [disabled={loadingInsights}]. *)
Definition handle (e : Event) (s : State) : State :=
  match e with
  | PropsChange c => set_contributors c s
  | RefreshClick =>
      if has_contributors s && negb (loadingInsights s)
      then fetchAIInsights s else s
  | ToggleExpand =>
      if has_contributors s then set_isExpanded (negb (isExpanded s)) s else s
  | InsightsSettled h r =>
      match awaiting h s with
      | Some (GetAIInsights _) => fetchAIInsights_settled r (settle h s)
      | None => s
      end
  end.

Definition step (s : State) (e : Event) : State := commit s (handle e s).

Definition run (s : State) (es : list Event) : State := fold_left step es s.

(** The component right after it is mounted with [contributors = c]: the
    effect has run once. *)
Definition mount (c : option Contributors) : State :=
  effect_fetch
    {| contributors := c; aiInsights := None; loadingInsights := false;
       insightsError := None; isExpanded := true; promises := [] |}.

(** *** Two requests in flight *)

(** A successful response carrying the text [i]. *)
Definition ok (i : jsstring) : InsightsOutcome :=
  InsightsResult true (Some i) None.


Definition contributors_1 : Contributors :=
  {| contributors_id := 0; items := ["engine_temp"] |}.
Definition contributors_2 : Contributors :=
  {| contributors_id := 1; items := ["oil_pressure"] |}.

(** Mounted with one contributors array (first request), then re-rendered
    with another while the first request is in flight (second request). *)
Definition two_in_flight : State :=
  run (mount (Some contributors_1)) [PropsChange (Some contributors_2)].

(** What the insights panel shows. *)
Inductive View :=
| Hidden
| ViewLoading
| ViewError (message : string)
| ViewCards (cards : list json)
| ViewRawText (text : jsstring)
| ViewPlaceholder.

Section Render.

Variable JSON_parse : jsstring -> option json.

(** [const insightCards = aiInsights ? parseInsights(aiInsights) : null] *)
Definition insightCards (s : State) : option (list json) :=
  match aiInsights s with
  | Some (c :: i) => parseInsights JSON_parse (c :: i)
  | _ => None
  end.

Definition render (s : State) : View :=
  if negb (has_contributors s) then Hidden
  else if loadingInsights s then ViewLoading
  else if truthy (insightsError s) then ViewError (default "" (insightsError s))
  else
    match insightCards s with
    | Some (c :: cards) => ViewCards (c :: cards)
    | _ =>
        match aiInsights s with
        | Some (c :: i) => ViewRawText (c :: i)
        | _ => ViewPlaceholder
        end
    end.

End Render.



End Insights.

(** ** The chat panel *)

Module Chatbot.

Definition CHATBOT_NAME : string := "AutoCare AI".

Record Message := {
  role : string;
  content : jsstring
}.

Inductive Call :=
| InitializeChatbot (prediction : nat) (pdfUrl : option string)
| SendChatMessage (message : jsstring).

Record State := {
  (** props: the prediction object (by identity), the PDF URL, [isReady] *)
  prediction : option nat;
  pdfUrl : option string;
  isReady : bool;
  (** state cells *)
  isOpen : bool;
  isInitializing : bool;
  isInitialized : bool;
  messages : list Message;
  inputValue : jsstring;
  isSending : bool;
  promises : list (Call * bool)
}.

Definition set_props (p : option nat) (u : option string) (r : bool)
  (s : State) : State :=
  {| prediction := p; pdfUrl := u; isReady := r;
     isOpen := isOpen s; isInitializing := isInitializing s;
     isInitialized := isInitialized s; messages := messages s;
     inputValue := inputValue s; isSending := isSending s;
     promises := promises s |}.

Definition set_isOpen (v : bool) (s : State) : State :=
  {| prediction := prediction s; pdfUrl := pdfUrl s; isReady := isReady s;
     isOpen := v; isInitializing := isInitializing s;
     isInitialized := isInitialized s; messages := messages s;
     inputValue := inputValue s; isSending := isSending s;
     promises := promises s |}.

Definition set_isInitializing (v : bool) (s : State) : State :=
  {| prediction := prediction s; pdfUrl := pdfUrl s; isReady := isReady s;
     isOpen := isOpen s; isInitializing := v;
     isInitialized := isInitialized s; messages := messages s;
     inputValue := inputValue s; isSending := isSending s;
     promises := promises s |}.

Definition set_isInitialized (v : bool) (s : State) : State :=
  {| prediction := prediction s; pdfUrl := pdfUrl s; isReady := isReady s;
     isOpen := isOpen s; isInitializing := isInitializing s;
     isInitialized := v; messages := messages s;
     inputValue := inputValue s; isSending := isSending s;
     promises := promises s |}.

Definition set_messages (v : list Message) (s : State) : State :=
  {| prediction := prediction s; pdfUrl := pdfUrl s; isReady := isReady s;
     isOpen := isOpen s; isInitializing := isInitializing s;
     isInitialized := isInitialized s; messages := v;
     inputValue := inputValue s; isSending := isSending s;
     promises := promises s |}.

Definition set_inputValue (v : jsstring) (s : State) : State :=
  {| prediction := prediction s; pdfUrl := pdfUrl s; isReady := isReady s;
     isOpen := isOpen s; isInitializing := isInitializing s;
     isInitialized := isInitialized s; messages := messages s;
     inputValue := v; isSending := isSending s;
     promises := promises s |}.

Definition set_isSending (v : bool) (s : State) : State :=
  {| prediction := prediction s; pdfUrl := pdfUrl s; isReady := isReady s;
     isOpen := isOpen s; isInitializing := isInitializing s;
     isInitialized := isInitialized s; messages := messages s;
     inputValue := inputValue s; isSending := v;
     promises := promises s |}.

Definition set_promises (v : list (Call * bool)) (s : State) : State :=
  {| prediction := prediction s; pdfUrl := pdfUrl s; isReady := isReady s;
     isOpen := isOpen s; isInitializing := isInitializing s;
     isInitialized := isInitialized s; messages := messages s;
     inputValue := inputValue s; isSending := isSending s;
     promises := v |}.

Definition call (c : Call) (s : State) : State :=
  set_promises (promises s ++ [(c, false)]) s.

Definition settle (h : nat) (s : State) : State :=
  set_promises (alter (fun p => (p.1, true)) h (promises s)) s.

Definition awaiting (h : nat) (s : State) : option Call :=
  match promises s !! h with
  | Some (c, false) => Some c
  | _ => None
  end.

(** The component as the Dashboard first renders it. *)
Definition init : State := {|
  prediction := None; pdfUrl := None; isReady := false;
  isOpen := false; isInitializing := false; isInitialized := false;
  messages := []; inputValue := []; isSending := false; promises := []
|}.

Inductive InitOutcome :=
| InitResult (success : bool) (greeting : jsstring)
| InitThrew.

Inductive ChatOutcome :=
| ChatResult (success : bool) (response : jsstring)
| ChatThrew.

(** [initializeChat], up to [await initializeChatbot(prediction, pdfUrl)]. *)
Definition initializeChat (s : State) : State :=
  match prediction s with
  | Some p => call (InitializeChatbot p (pdfUrl s)) (set_isInitializing true s)
  | None => s
  end.

(** [initializeChat], from the [await] on. *)
Definition initializeChat_settled (r : InitOutcome) (s : State) : State :=
  let s1 :=
    match r with
    | InitResult true greeting =>
        set_isInitialized true
          (set_messages
             [{| role := "bot";
                 content :=
                   match greeting with
                   | [] => js ("Hello! I'm " ++ CHATBOT_NAME ++
                       ", your vehicle health assistant. How can I help you today?")
                   | _ => greeting
                   end |}] s)
    | InitResult false _ =>
        set_messages
          [{| role := "bot";
              content := js ("Hello! I'm " ++ CHATBOT_NAME ++
                ". I'm having trouble loading the analysis data, but I'll try to help you.") |}] s
    | InitThrew =>
        set_messages
          [{| role := "bot";
              content := js ("Hello! I'm " ++ CHATBOT_NAME ++
                ". I encountered an issue, but feel free to ask me questions!") |}] s
    end in
  set_isInitializing false s1.

(** "Initialize chatbot when opened and ready": the effect with dependencies
    [[isOpen, isReady, prediction, isInitialized]]. *)
Definition effect_init (s : State) : State :=
  if isOpen s && isReady s && bool_decide (is_Some (prediction s))
     && negb (isInitialized s) && negb (isInitializing s)
  then initializeChat s else s.

Definition commit (old new : State) : State :=
  if bool_decide (isOpen old = isOpen new)
     && bool_decide (isReady old = isReady new)
     && bool_decide (prediction old = prediction new)
     && bool_decide (isInitialized old = isInitialized new)
  then new else effect_init new.

(** [handleSend], up to [await sendChatMessage(userMessage)]. *)
Definition handleSend (s : State) : State :=
  match trim (inputValue s) with
  | [] => s
  | userMessage =>
      if isSending s then s
      else
        call (SendChatMessage userMessage)
          (set_isSending true
             (set_messages
                (messages s ++ [{| role := "user"; content := userMessage |}])
                (set_inputValue [] s)))
  end.

(** [handleSend], from the [await] on. *)
Definition handleSend_settled (r : ChatOutcome) (s : State) : State :=
  let reply :=
    match r with
    | ChatResult true response => response
    | ChatResult false _ =>
        js "Sorry, I had trouble processing that. Please try again."
    | ChatThrew => js "Sorry, I encountered an error. Please try again."
    end in
  set_isSending false
    (set_messages (messages s ++ [{| role := "bot"; content := reply |}]) s).

Inductive Event :=
| Props (prediction : option nat) (pdfUrl : option string) (isReady : bool)
| Toggle
| InputChange (value : jsstring)
| Send
| InitSettled (h : nat) (r : InitOutcome)
| ChatSettled (h : nat) (r : ChatOutcome).

(** The component renders nothing unless [isReady]; the input and the send
    button live in the open panel and are disabled while sending or
    initialising. *)
Definition handle (e : Event) (s : State) : State :=
  match e with
  | Props p u r => set_props p u r s
  | Toggle => if isReady s then set_isOpen (negb (isOpen s)) s else s
  | InputChange v =>
      if isReady s && isOpen s && negb (isSending s || isInitializing s)
      then set_inputValue v s else s
  | Send =>
      if isReady s && isOpen s && negb (isSending s || isInitializing s)
      then handleSend s else s
  | InitSettled h r =>
      match awaiting h s with
      | Some (InitializeChatbot _ _) => initializeChat_settled r (settle h s)
      | _ => s
      end
  | ChatSettled h r =>
      match awaiting h s with
      | Some (SendChatMessage _) => handleSend_settled r (settle h s)
      | _ => s
      end
  end.

Definition step (s : State) (e : Event) : State := commit s (handle e s).

Definition run (s : State) (es : list Event) : State := fold_left step es s.

Definition calls (s : State) : list Call := (promises s).*1.

(** The calls made to the chat-initialisation collaborator, oldest first. *)
Definition init_calls (s : State) : list (nat * option string) :=
  omap (fun c => match c with
                 | InitializeChatbot p u => Some (p, u)
                 | _ => None
                 end) (calls s).

(** *** Scenario *)

(** The report of prediction 0 is uploaded, the user opens the panel and the
    initialisation succeeds. *)
Definition trace_chat_initialised : list Event :=
  [ Props (Some 0) (Some "https://cdn.example/report-1.pdf") true;
    Toggle;
    InitSettled 0 (InitResult true (js "Hello")) ].

(** The panel is closed; prediction 1 replaces prediction 0, its report is
    uploaded, and the user opens the panel again. *)
Definition trace_chat_new_prediction : list Event :=
  [ Toggle;
    Props (Some 1) None false;
    Props (Some 1) (Some "https://cdn.example/report-2.pdf") true;
    Toggle ].

End Chatbot.

(** ** Nearby workshops: the geolocation request

    The source has two variants of the component, a collapsible card and a
    tab.  [getCurrentLocation], its two callbacks and the Retry button are
    the same text in both; the collapsible variant also records, in a flag
    of its own, that the location has been requested. *)

Module Workshops.

(** [GeolocationPositionError] constants. *)
Definition PERMISSION_DENIED : N := 1.
Definition POSITION_UNAVAILABLE : N := 2.
Definition TIMEOUT : N := 3.

(** The [switch (err.code)] of the error callback. *)
Definition geolocation_error_message (code : N) : string :=
  if (code =? PERMISSION_DENIED)%N then
    "Location permission denied. Please enable location access in your browser settings."
  else if (code =? POSITION_UNAVAILABLE)%N then
    "Location information unavailable. Please try again."
  else if (code =? TIMEOUT)%N then
    "Location request timed out. Please try again."
  else "An error occurred while getting your location.".

(** The four kinds of failure of a geolocation request. *)
Inductive ErrorKind :=
| PermissionDenied
| PositionUnavailable
| Timeout
| Unknown.

Definition error_kind (code : N) : ErrorKind :=
  if (code =? PERMISSION_DENIED)%N then PermissionDenied
  else if (code =? POSITION_UNAVAILABLE)%N then PositionUnavailable
  else if (code =? TIMEOUT)%N then Timeout
  else Unknown.

Record Center := {
  name : string;
  address : string
}.

Inductive Call :=
| GetCurrentPosition
| GetServiceCenters (latitude longitude : Q) (radius : Q).

Record State := {
  (** whether [navigator.geolocation] exists *)
  geolocation : bool;
  loading : bool;
  error : option string;
  userLocation : option (Q * Q);
  serviceCenters : list Center;
  promises : list (Call * bool)
}.

Definition set_loading (v : bool) (s : State) : State :=
  {| geolocation := geolocation s; loading := v; error := error s;
     userLocation := userLocation s; serviceCenters := serviceCenters s;
     promises := promises s |}.

Definition set_error (v : option string) (s : State) : State :=
  {| geolocation := geolocation s; loading := loading s; error := v;
     userLocation := userLocation s; serviceCenters := serviceCenters s;
     promises := promises s |}.

Definition set_userLocation (v : option (Q * Q)) (s : State) : State :=
  {| geolocation := geolocation s; loading := loading s; error := error s;
     userLocation := v; serviceCenters := serviceCenters s;
     promises := promises s |}.

Definition set_serviceCenters (v : list Center) (s : State) : State :=
  {| geolocation := geolocation s; loading := loading s; error := error s;
     userLocation := userLocation s; serviceCenters := v;
     promises := promises s |}.

Definition set_promises (v : list (Call * bool)) (s : State) : State :=
  {| geolocation := geolocation s; loading := loading s; error := error s;
     userLocation := userLocation s; serviceCenters := serviceCenters s;
     promises := v |}.

Definition call (c : Call) (s : State) : State :=
  set_promises (promises s ++ [(c, false)]) s.

Definition settle (h : nat) (s : State) : State :=
  set_promises (alter (fun p => (p.1, true)) h (promises s)) s.

Definition awaiting (h : nat) (s : State) : option Call :=
  match promises s !! h with
  | Some (c, false) => Some c
  | _ => None
  end.

Definition init (supported : bool) : State := {|
  geolocation := supported; loading := false; error := None;
  userLocation := None; serviceCenters := []; promises := []
|}.

(** [getCurrentLocation], up to the call of
    [navigator.geolocation.getCurrentPosition]. *)
Definition getCurrentLocation (s : State) : State :=
  let s1 := set_error None (set_loading true s) in
  if geolocation s1 then call GetCurrentPosition s1
  else set_loading false
         (set_error (Some "Geolocation is not supported by your browser") s1).

(** The success callback, up to [await getServiceCenters(...)]. *)
Definition on_position (latitude longitude : Q) (s : State) : State :=
  call (GetServiceCenters latitude longitude 15000)
    (set_userLocation (Some (latitude, longitude)) s).

(** The error callback. *)
Definition on_position_error (code : N) (s : State) : State :=
  set_loading false (set_error (Some (geolocation_error_message code)) s).

Inductive CentersOutcome :=
| CentersResult (success : bool) (service_centers : option (list Center))
| CentersThrew (message : option string).

(** The success callback, from the [await] on. *)
Definition on_centers (r : CentersOutcome) (s : State) : State :=
  let s1 :=
    match r with
    | CentersResult true cs => set_serviceCenters (default [] cs) s
    | CentersResult false _ =>
        set_error (Some "Failed to fetch nearby workshops") s
    | CentersThrew m =>
        set_error (Some (or_default m "Failed to load nearby workshops")) s
    end in
  set_loading false s1.

Inductive Event :=
| GetLocation
| RetryClick
| PositionSettled (h : nat) (r : N + Q * Q)
| CentersSettled (h : nat) (r : CentersOutcome).

(** The Retry button sits in the error alert, rendered when
    [error && !loading]. *)
Definition retry_visible (s : State) : bool :=
  truthy (error s) && negb (loading s).

Definition step (s : State) (e : Event) : State :=
  match e with
  | GetLocation => getCurrentLocation s
  | RetryClick => if retry_visible s then getCurrentLocation s else s
  | PositionSettled h r =>
      match awaiting h s with
      | Some GetCurrentPosition =>
          match r with
          | inl code => on_position_error code (settle h s)
          | inr (lat, lng) => on_position lat lng (settle h s)
          end
      | _ => s
      end
  | CentersSettled h r =>
      match awaiting h s with
      | Some (GetServiceCenters _ _ _) => on_centers r (settle h s)
      | _ => s
      end
  end.

Definition run (s : State) (es : list Event) : State := fold_left step es s.

(** How often the browser was asked for the position. *)
Definition position_requests (s : State) : nat :=
  length (List.filter (fun c => match c with
                                | GetCurrentPosition => true
                                | _ => false
                                end) (promises s).*1).

End Workshops.

(** ** A reader for JSON texts

    A recursive-descent reader for the JSON grammar (ECMA-404), used to run
    [parseInsights] on concrete texts.  Numbers are kept as their lexemes.
    The theorems about [parseInsights] hold for every [JSON_parse]. *)

Module JsonRef.

Import Insights.

Definition is_json_ws (c : N) : bool :=
  ((c =? 32) || (c =? 9) || (c =? 10) || (c =? 13))%N.

Fixpoint skip_ws (s : jsstring) : jsstring :=
  match s with
  | c :: r => if is_json_ws c then skip_ws r else s
  | [] => []
  end.

Definition is_digit (c : N) : bool := ((48 <=? c) && (c <=? 57))%N.

Definition hex_value (c : N) : option N :=
  if is_digit c then Some (c - 48)%N
  else if ((65 <=? c) && (c <=? 70))%N then Some (c - 55)%N
  else if ((97 <=? c) && (c <=? 102))%N then Some (c - 87)%N
  else None.

Definition escape_value (c : N) : option N :=
  if (c =? 34)%N then Some 34%N
  else if (c =? 92)%N then Some 92%N
  else if (c =? 47)%N then Some 47%N
  else if (c =? 98)%N then Some 8%N
  else if (c =? 102)%N then Some 12%N
  else if (c =? 110)%N then Some 10%N
  else if (c =? 114)%N then Some 13%N
  else if (c =? 116)%N then Some 9%N
  else None.

(** The characters of a string literal after its opening quote. *)
Fixpoint read_string (s : jsstring) (acc : jsstring)
  : option (jsstring * jsstring) :=
  match s with
  | [] => None
  | c :: r =>
      if (c =? 34)%N then Some (rev acc, r)
      else if (c =? 92)%N then
        match r with
        | [] => None
        | e :: r1 =>
            if (e =? 117)%N then
              match r1 with
              | h1 :: h2 :: h3 :: h4 :: r2 =>
                  match hex_value h1, hex_value h2, hex_value h3, hex_value h4
                  with
                  | Some a, Some b, Some c', Some d =>
                      read_string r2
                        ((a * 4096 + b * 256 + c' * 16 + d)%N :: acc)
                  | _, _, _, _ => None
                  end
              | _ => None
              end
            else
              match escape_value e with
              | Some v => read_string r1 (v :: acc)
              | None => None
              end
        end
      else if (c <? 32)%N then None
      else read_string r (c :: acc)
  end.

Fixpoint take_digits (s : jsstring) : jsstring * jsstring :=
  match s with
  | c :: r =>
      if is_digit c then let '(d, r') := take_digits r in (c :: d, r')
      else ([], s)
  | [] => ([], [])
  end.

(** [-? int frac? exp?] *)
Definition read_number (s : jsstring) : option (jsstring * jsstring) :=
  let '(sign, s1) :=
    match s with
    | c :: r => if (c =? 45)%N then ([c], r) else ([], s)
    | [] => ([], s)
    end in
  let '(int, s2) := take_digits s1 in
  match int with
  | [] => None
  | d :: ds =>
      if (d =? 48)%N && negb (Nat.eqb (length ds) 0) then None
      else
        let frac :=
          match s2 with
          | c :: r =>
              if (c =? 46)%N then
                match take_digits r with
                | ([], _) => None
                | (f, r') => Some (c :: f, r')
                end
              else Some ([], s2)
          | [] => Some ([], s2)
          end in
        match frac with
        | None => None
        | Some (f, s3) =>
            let exp :=
              match s3 with
              | c :: r =>
                  if (c =? 101)%N || (c =? 69)%N then
                    let '(sg, r1) :=
                      match r with
                      | g :: r' =>
                          if (g =? 43)%N || (g =? 45)%N then ([g], r')
                          else ([], r)
                      | [] => ([], r)
                      end in
                    match take_digits r1 with
                    | ([], _) => None
                    | (e, r2) => Some ((c :: sg ++ e)%list, r2)
                    end
                  else Some ([], s3)
              | [] => Some ([], s3)
              end in
            match exp with
            | None => None
            | Some (e, s4) => Some ((sign ++ int ++ f ++ e)%list, s4)
            end
        end
  end.

Fixpoint read_value (fuel : nat) (s : jsstring) : option (json * jsstring) :=
  match fuel with
  | 0 => None
  | S fuel' =>
      match skip_ws s with
      | [] => None
      | c :: r =>
          if (c =? 91)%N then
            match skip_ws r with
            | c' :: r' =>
                if (c' =? 93)%N then Some (JArray [], r')
                else read_elements fuel' r []
            | [] => None
            end
          else if (c =? 123)%N then
            match skip_ws r with
            | c' :: r' =>
                if (c' =? 125)%N then Some (JObject [], r')
                else read_members fuel' r []
            | [] => None
            end
          else if (c =? 34)%N then
            match read_string r [] with
            | Some (str, r') => Some (JString str, r')
            | None => None
            end
          else if Insights.starts_with (js "true") (c :: r)
          then Some (JBool true, drop 4 (c :: r))
          else if Insights.starts_with (js "false") (c :: r)
          then Some (JBool false, drop 5 (c :: r))
          else if Insights.starts_with (js "null") (c :: r)
          then Some (JNull, drop 4 (c :: r))
          else
            match read_number (c :: r) with
            | Some (lexeme, r') => Some (JNumber lexeme, r')
            | None => None
            end
      end
  end
with read_elements (fuel : nat) (s : jsstring) (acc : list json)
  : option (json * jsstring) :=
  match fuel with
  | 0 => None
  | S fuel' =>
      match read_value fuel' s with
      | Some (v, r) =>
          match skip_ws r with
          | c :: r' =>
              if (c =? 44)%N then read_elements fuel' r' (v :: acc)
              else if (c =? 93)%N then Some (JArray (rev (v :: acc)), r')
              else None
          | [] => None
          end
      | None => None
      end
  end
with read_members (fuel : nat) (s : jsstring) (acc : list (jsstring * json))
  : option (json * jsstring) :=
  match fuel with
  | 0 => None
  | S fuel' =>
      match skip_ws s with
      | q :: r =>
          if (q =? 34)%N then
            match read_string r [] with
            | Some (key, r1) =>
                match skip_ws r1 with
                | colon :: r2 =>
                    if (colon =? 58)%N then
                      match read_value fuel' r2 with
                      | Some (v, r3) =>
                          match skip_ws r3 with
                          | c :: r4 =>
                              if (c =? 44)%N
                              then read_members fuel' r4 ((key, v) :: acc)
                              else if (c =? 125)%N
                              then Some (JObject (rev ((key, v) :: acc)), r4)
                              else None
                          | [] => None
                          end
                      | None => None
                      end
                    else None
                | [] => None
                end
            | None => None
            end
          else None
      | [] => None
      end
  end.

(** A JSON text written with an apostrophe in place of each double quote. *)
Definition json_text (s : string) : jsstring :=
  map (fun c => if (c =? 39)%N then 34%N else c) (js s).

Definition JSON_parse (text : jsstring) : option json :=
  match read_value (2 * length text + 2) text with
  | Some (v, r) =>
      match skip_ws r with
      | [] => Some v
      | _ => None
      end
  | None => None
  end.

(** The text of one insight card. *)
Definition card_text : jsstring :=
  json_text
    "[{'type':'tip','title':'Check oil','description':'Oil pressure is low'}]".

End JsonRef.

(** ** The feature encoder *)

Module Encoder.

(** An entry of [FEATURE_DEFINITIONS]. *)
Record FeatureDefinition := {
  id : string;
  default : Q;
  range_min : Q;
  range_max : Q
}.


Definition in_range (f : FeatureDefinition) (v : Q) : bool :=
  Qle_bool (range_min f) v && Qle_bool v (range_max f).

Definition encode_feature (telemetry : gmap string Q) (f : FeatureDefinition)
  : Q :=
  match telemetry !! id f with
  | Some v => if in_range f v then v else default f
  | None => default f
  end.

(** Modelled from the spec: [convertToFeatures] of [src/utils/helpers], which
    is not among the source files.  Section 4.1: "given a TelemetryInput and a
    fixed ordered schema of feature definitions (id, default, valid range),
    produce an ordered numeric sequence of exactly the schema's length.  For
    each schema entry, use the input's value if present and within range;
    otherwise use the schema default." *)
Definition convertToFeatures (FEATURE_DEFINITIONS : list FeatureDefinition)
  (telemetry : gmap string Q) : list Q :=
  map (encode_feature telemetry) FEATURE_DEFINITIONS.

(** *** An example schema *)

Definition schema_example : list FeatureDefinition :=
  [ {| id := "engine_temp"; default := 90; range_min := 60; range_max := 130 |};
    {| id := "oil_pressure"; default := 40; range_min := 10; range_max := 80 |};
    {| id := "rpm"; default := 2500; range_min := 0; range_max := 8000 |} ].

Definition telemetry_example : gmap string Q :=
  <["engine_temp" := 105%Q]> (<["oil_pressure" := 500%Q]> ∅).

End Encoder.

(** ** Counting promises *)

Module Promises.

Section Count.

Context {C : Type}.

(** Calls of kind [P] that were issued. *)
Definition issued (P : C -> bool) (l : list (C * bool)) : nat :=
  length (List.filter (fun p => P p.1) l).

(** Calls of kind [P] that have not settled yet. *)
Definition unsettled (P : C -> bool) (l : list (C * bool)) : nat :=
  length (List.filter (fun p => P p.1 && negb p.2) l).

(** Calls of kind [P] that have settled. *)
Definition settled (P : C -> bool) (l : list (C * bool)) : nat :=
  length (List.filter (fun p => P p.1 && p.2) l).

End Count.

(** The number that an in-flight flag stands for. *)
Definition b2n (b : bool) : nat := if b then 1 else 0.

End Promises.

(** ** Observations on the Dashboard *)

Module DashboardObs.

Import Dashboard Promises.

Definition is_predict (c : Call) : bool :=
  match c with
  | Predict => true
  | _ => false
  end.


Definition is_email (c : Call) : bool :=
  match c with
  | SendReportEmail _ _ => true
  | _ => false
  end.

(** The upload state has one of the three shapes the code writes. *)
Definition status_shape (st : UploadStatus) : Prop :=
  st = status_initial
  \/ st = {| uploading := true; uploaded := false; url := None |}
  \/ exists u, st = {| uploading := false; uploaded := true; url := u |}.

(** An event that reports the failure of a started upload: the PDF could
    not be rendered, the upload answered without success, or it threw. *)
Definition upload_failure (e : Event) (s : State) : Prop :=
  match e with
  | PdfSettled h false =>
      exists p i, awaiting h s = Some (GeneratePdf p i)
  | UploadSettled h (UploadResult false _) =>
      exists p, awaiting h s = Some (UploadPdf p)
  | UploadSettled h UploadThrew =>
      exists p, awaiting h s = Some (UploadPdf p)
  | _ => False
  end.

(** One prediction call is in flight exactly while [loading] is set, and one
    e-mail call exactly while [emailSending] is set. *)
Definition flight_inv (s : State) : Prop :=
  unsettled is_predict (promises s) = b2n (loading s)
  ∧ unsettled is_email (promises s) = b2n (emailSending s).

End DashboardObs.

(** ** Observations on the chat panel *)

Module ChatbotObs.

Import Chatbot Promises.

Definition is_init (c : Call) : bool :=
  match c with
  | InitializeChatbot _ _ => true
  | _ => false
  end.

Definition is_chat (c : Call) : bool :=
  match c with
  | SendChatMessage _ => true
  | _ => false
  end.

(** The texts passed to the chat collaborator, oldest first. *)
Definition chat_messages (s : State) : list jsstring :=
  omap (fun c => match c with
                 | SendChatMessage m => Some m
                 | _ => None
                 end) (calls s).

(** One initialisation is in flight exactly while [isInitializing] is set,
    and one chat message exactly while [isSending] is set. *)
Definition flight_inv (s : State) : Prop :=
  unsettled is_init (promises s) = b2n (isInitializing s)
  ∧ unsettled is_chat (promises s) = b2n (isSending s).

End ChatbotObs.

(** ** Observations on the insights panel *)

Module InsightsObs.

Import Insights.

(** An outcome that applies no insights. *)
Definition fetch_failed (r : InsightsOutcome) : Prop :=
  match r with
  | InsightsResult true (Some (_ :: _)) _ => False
  | _ => True
  end.

End InsightsObs.

(** ** The API layer *)

Module Api.

(** Every wrapper of the API layer catches the failure of its request and
    throws [new Error(<field of the response body> || <fixed text>)]; the
    field is [message] for some wrappers and [error] for others. *)
Definition rejection (field : option string) (fallback : string)
  : option string :=
  Some (or_default field fallback).

Definition predictVehicleHealth_error (message : option string) :=
  rejection message "Failed to get prediction".

Definition getAIInsights_error (message : option string) :=
  rejection message "Failed to get AI insights".

Definition getServiceCenters_error (message : option string) :=
  rejection message "Failed to load service centers".

Definition sendAlert_error (message : option string) :=
  rejection message "Failed to send alert".

Definition uploadPDFToCloudinary_error (error : option string) :=
  rejection error "Failed to upload PDF".

Definition initializeChatbot_error (error : option string) :=
  rejection error "Failed to initialize chatbot".

Definition sendChatMessage_error (error : option string) :=
  rejection error "Failed to send message".

Definition sendReportEmail_error (error : option string) :=
  rejection error "Failed to send email".

End Api.

(** ** Colour helpers of the PDF report *)

Module Report.

Record KPIConfig := {
  color : string;
  bg : string
}.

(** The double nearest to 0.1, the literal of the anomaly threshold. *)
Definition double_0_1 : Q := 3602879701896397 # 36028797018963968.

Definition getKPIConfig (id : string) (value : Q) : KPIConfig :=
  if String.eqb id "failure" then
    if Qle_bool 70 value then {| color := "#ef4444"; bg := "#fef2f2" |}
    else if Qle_bool 40 value then {| color := "#f97316"; bg := "#fff7ed" |}
    else {| color := "#22c55e"; bg := "#f0fdf4" |}
  else if String.eqb id "rul" then
    if Qle_bool value 30 then {| color := "#ef4444"; bg := "#fef2f2" |}
    else if Qle_bool value 60 then {| color := "#f97316"; bg := "#fff7ed" |}
    else {| color := "#3b82f6"; bg := "#eff6ff" |}
  else if String.eqb id "anomaly" then
    if Qle_bool (1 # 2) value then {| color := "#ef4444"; bg := "#fef2f2" |}
    else if Qle_bool double_0_1 value
    then {| color := "#f97316"; bg := "#fff7ed" |}
    else {| color := "#8b5cf6"; bg := "#f5f3ff" |}
  else if String.eqb id "health" then
    if Qle_bool 80 value then {| color := "#22c55e"; bg := "#f0fdf4" |}
    else if Qle_bool 50 value then {| color := "#f97316"; bg := "#fff7ed" |}
    else {| color := "#ef4444"; bg := "#fef2f2" |}
  else {| color := "#3b82f6"; bg := "#eff6ff" |}.

Definition getComponentColor (score : Q) : string :=
  if Qle_bool 80 score then "#22c55e"
  else if Qle_bool 50 score then "#f97316"
  else "#ef4444".

(** The value of the "failure" card of the report:
    [kpis?.failure_probability || 0]. *)
Definition failure_card_value (d : Dashboard.PredictionData) : Q :=
  num_or_zero (k ← Dashboard.kpis d; Dashboard.failure_probability k).


End Report.

(** ** The collapsible variant of NearbyWorkshops *)

Module WorkshopsCard.

Record State := {
  core : Workshops.State;
  expanded : bool;
  locationRequested : bool
}.

Definition init (supported : bool) : State :=
  {| core := Workshops.init supported; expanded := false;
     locationRequested := false |}.

(** [getCurrentLocation] of this variant: it first records the request. *)
Definition getCurrentLocation (s : State) : State :=
  {| core := Workshops.getCurrentLocation (core s); expanded := expanded s;
     locationRequested := true |}.

(** "Toggle expand/collapse". *)
Definition handleToggleExpand (s : State) : State :=
  let s1 := {| core := core s; expanded := negb (expanded s);
               locationRequested := locationRequested s |} in
  if negb (expanded s) && negb (locationRequested s)
  then getCurrentLocation s1 else s1.

Inductive Event :=
| ToggleExpand
| Core (e : Workshops.Event).

(** Events of the shared part keep their handlers; the buttons that call
    [getCurrentLocation] go through this variant's version of it. *)
Definition step (s : State) (e : Event) : State :=
  match e with
  | ToggleExpand => handleToggleExpand s
  | Core Workshops.GetLocation => getCurrentLocation s
  | Core Workshops.RetryClick =>
      if Workshops.retry_visible (core s) then getCurrentLocation s else s
  | Core e' =>
      {| core := Workshops.step (core s) e'; expanded := expanded s;
         locationRequested := locationRequested s |}
  end.

Definition run (s : State) (es : list Event) : State := fold_left step es s.

End WorkshopsCard.

Local Open Scope list_scope.
Local Open Scope nat_scope.

(** * Properties *)


(** Settling a promise does not change which calls were made. *)
Lemma fst_alter_settled {A : Type} (l : list (A * bool)) (h : nat) :
  (alter (fun p => (p.1, true)) h l).*1 = l.*1.
Proof.
  revert h; induction l as [|p l IH]; intros [|h]; simpl; try reflexivity.
  f_equal. apply IH.
Qed.

(** ** Dashboard *)

Module DashboardTheory.

Import Dashboard.

Lemma calls_settle h s : calls (settle h s) = calls s.
Proof. apply fst_alter_settled. Qed.

Lemma calls_call c s : calls (call c s) = calls s ++ [c].
Proof. unfold calls, call; simpl. by rewrite fmap_app. Qed.

Lemma emails_call c s :
  emails (call c s) = emails s ++ option_list (email_of c).
Proof.
  unfold emails. rewrite calls_call, omap_app. reflexivity.
Qed.

Lemma emails_settle h s : emails (settle h s) = emails s.
Proof. unfold emails. by rewrite calls_settle. Qed.

(** Unfold the handlers down to the promise table. *)
Ltac expose :=
  repeat progress
    (unfold emails, calls, handleAnalyze, handleAnalyze_settled, sendSmsAlert,
       sendSmsAlert_settled, uploadPDF_blob, uploadPDF_settled,
       handleSendEmail, handleSendEmail_settled, effect_upload, effect_reset,
       call, settle in *;
     simpl in * ).

Ltac table :=
  expose; repeat (case_match; expose);
  rewrite ?fmap_app, ?omap_app, ?fst_alter_settled; simpl;
  rewrite ?app_nil_r.



Lemma truthy_nonempty u : truthy (Some u) = true → u ≠ "".
Proof.
  simpl. intros H ->. discriminate.
Qed.

Lemma or_default_truthy m d : d ≠ "" → truthy (Some (or_default m d)) = true.
Proof.
  intros Hd. unfold or_default.
  destruct (truthy m) eqn:Hm.
  - destruct m as [x|]; [exact Hm | discriminate].
  - simpl. destruct (String.eqb_spec d ""); [contradiction | reflexivity].
Qed.





Lemma email_button_enabled_inv s :
  email_button_enabled s = true →
  uploaded (pdfUploadStatus s) = true ∧ emailSending s = false
  ∧ emailSent s = false ∧ loading s = false ∧ is_Some (prediction s).
Proof.
  unfold email_button_enabled. intros H.
  repeat (apply andb_prop in H as [H ?]).
  apply bool_decide_eq_true in H.
  destruct (emailSending s), (emailSent s), (loading s); try discriminate.
  auto.
Qed.



Lemma run_snoc s es e : run s (es ++ [e]) = step (run s es) e.
Proof. unfold run. by rewrite fold_left_app. Qed.




(** [sendSmsAlert] passes the severity computed from the failure
    probability of the prediction it is given. *)
Lemma sendSmsAlert_severity s d :
  phoneNumber s ≠ "" →
  calls (sendSmsAlert (Some d) s)
  = calls s ++ [SendAlert (phoneNumber s) (kpi_failure_probability d)
                  (kpi_remaining_useful_life d)
                  (severity_of (kpi_failure_probability d))].
Proof.
  intros Hp. unfold sendSmsAlert.
  destruct (String.eqb_spec (phoneNumber s) ""); [contradiction|].
  apply calls_call.
Qed.

(** While a prediction stays current and its upload has been triggered, no
    sequence of insight updates starts another generation or upload. *)
Lemma insights_updates_after_trigger vs : ∀ s,
  pdfUploadTriggered s = true →
  calls (run s (map AIInsightsUpdate vs)) = calls s.
Proof.
  induction vs as [|v vs IH]; intros s H; simpl; [reflexivity|].
  assert (Hs : pdfUploadTriggered (step s (AIInsightsUpdate v)) = true
               ∧ calls (step s (AIInsightsUpdate v)) = calls s).
  { unfold step, commit, kpis_dep, prediction_dep. simpl.
    rewrite bool_decide_eq_true_2 by reflexivity.
    rewrite (bool_decide_eq_true_2 (_ <$> _ = _)) by reflexivity.
    rewrite andb_true_r.
    case_bool_decide; [auto|].
    unfold effect_upload; simpl. rewrite H. simpl.
    destruct v as [i|]; [|auto].
    destruct (prediction s); [|auto].
    rewrite andb_false_r. auto. }
  destruct Hs as [Ht Hc]. rewrite IH by exact Ht. exact Hc.
Qed.

(** A click on Analyze while no analysis runs is [handleAnalyze]; no effect
    follows. *)
Lemma step_analyze_idle s :
  loading s = false → step s AnalyzeClick = handleAnalyze s.
Proof.
  intros H. unfold step, commit, kpis_dep, prediction_dep. simpl. rewrite H.
  simpl. rewrite !bool_decide_eq_true_2 by reflexivity. reflexivity.
Qed.

(** With the guard set the upload effect does nothing. *)
Lemma effect_upload_triggered s :
  pdfUploadTriggered s = true → effect_upload s = s.
Proof.
  intros H. unfold effect_upload. rewrite H.
  destruct (aiInsights s), (prediction s); try reflexivity.
  by rewrite andb_false_r.
Qed.

(** The guard is cleared only by the settlement of a prediction call that
    changes [prediction?.kpis], that is, by a new prediction. *)
Lemma guard_cleared_only_by_prediction s e :
  pdfUploadTriggered s = true → pdfUploadTriggered (step s e) = false →
  (∃ h r, e = PredictSettled h r) ∧ kpis_dep (handle e s) ≠ kpis_dep s.
Proof.
  intros Ht Hf.
  assert (Hh : pdfUploadTriggered (handle e s) = true)
    by (destruct e; table; auto).
  assert (Hk : kpis_dep (handle e s) ≠ kpis_dep s).
  { intros E. unfold step, commit in Hf.
    rewrite (bool_decide_eq_true_2 _ (eq_sym E)) in Hf.
    rewrite (effect_upload_triggered _ Hh) in Hf.
    destruct (_ && _) in Hf; congruence. }
  split; [|exact Hk].
  destruct e; try (exfalso; apply Hk; table; reflexivity).
  eauto.
Qed.

(** A new prediction with a [kpis] object leaves the upload guard cleared
    and the upload state initial. *)
Lemma new_prediction_resets_upload s e :
  kpis_dep (handle e s) ≠ kpis_dep s →
  pdfUploadTriggered (step s e) = false
  ∧ pdfUploadStatus (step s e) = status_initial.
Proof.
  intros Hk. unfold step, commit.
  rewrite bool_decide_eq_false_2 by congruence. by split.
Qed.





(** C5.  When the awaited prediction call resolves without success or
    rejects, the stored prediction, the insights and the upload state are
    unchanged, no collaborator is called, [loading] is false again and a
    non-empty error message is set; a further click on Analyze clears the
    error and issues a new prediction call. *)
Theorem failed_analysis_keeps_state (s : State) (h : nat) (r : PredictOutcome) :
  awaiting h s = Some Predict →
  analysis_failed r →
  let s' := step s (PredictSettled h r) in
  prediction s' = prediction s
  ∧ aiInsights s' = aiInsights s
  ∧ pdfUploadStatus s' = pdfUploadStatus s
  ∧ calls s' = calls s
  ∧ loading s' = false
  ∧ truthy (error s') = true
  ∧ error (step s' AnalyzeClick) = None
  ∧ loading (step s' AnalyzeClick) = true
  ∧ calls (step s' AnalyzeClick) = calls s' ++ [Predict].
Proof.
  intros Hw Hr.
  assert (Hh : handle (PredictSettled h r) s
               = set_loading false
                   (set_error
                      (Some match r with
                            | PredictThrew m =>
                                or_default m
                                  "An error occurred while analyzing vehicle health."
                            | _ => "Failed to get prediction. Please try again."
                            end) (settle h s))).
  { simpl. rewrite Hw. destruct r as [[] d|m]; [destruct Hr| |]; reflexivity. }
  assert (Hc : step s (PredictSettled h r) = handle (PredictSettled h r) s).
  { unfold step, commit. rewrite Hh. unfold kpis_dep, prediction_dep. simpl.
    rewrite !bool_decide_eq_true_2 by reflexivity. reflexivity. }
  simpl. rewrite Hc, Hh.
  assert (Ht : truthy (Some match r with
                            | PredictThrew m =>
                                or_default m
                                  "An error occurred while analyzing vehicle health."
                            | _ => "Failed to get prediction. Please try again."
                            end) = true).
  { destruct r as [[] d|m]; try reflexivity. by apply or_default_truthy. }
  rewrite step_analyze_idle by reflexivity.
  repeat split; try reflexivity; try exact Ht.
  - apply fst_alter_settled.
  - unfold calls. simpl. by rewrite fmap_app.
Qed.

Lemma failed_analysis_keeps_state_witness :
  let s := run init (trace_first_cycle ++ [AnalyzeClick]) in
  let s' := step s (PredictSettled 4 (predictVehicleHealth_rejected None)) in
  prediction s' = prediction s
  ∧ loading s' = false
  ∧ error s' = Some "Failed to get prediction".
Proof.
  assert (Hw : awaiting 4 (run init (trace_first_cycle ++ [AnalyzeClick]))
               = Some Predict) by (vm_compute; reflexivity).
  pose proof (failed_analysis_keeps_state _ 4
                (predictVehicleHealth_rejected None) Hw I) as H.
  cbv zeta in H. destruct H as (Hp & _ & _ & _ & Hl & _).
  cbv zeta.
  split; [exact Hp | split; [exact Hl | vm_compute; reflexivity]].
Defined.

(** C7.  The severity sent with the SMS alert is "critical" from 70 up,
    "warning" from 40 up to (not including) 70, and "normal" below 40; it is
    computed from the failure probability of the prediction, 0 when that is
    missing. *)
Theorem sms_severity_thresholds (failureProb : Q) :
  (70 <= failureProb → severity_of failureProb = "critical")%Q
  ∧ (40 <= failureProb → failureProb < 70 →
     severity_of failureProb = "warning")%Q
  ∧ (failureProb < 40 → severity_of failureProb = "normal")%Q
  ∧ severity_of 75 = "critical"
  ∧ severity_of 50 = "warning"
  ∧ severity_of 10 = "normal"
  ∧ (∀ s k,
       phoneNumber s ≠ "" →
       failure_probability k = Some failureProb →
       ∃ rul,
         calls (sendSmsAlert (Some {| kpis := Some k |}) s)
         = calls s ++ [SendAlert (phoneNumber s) failureProb rul
                         (severity_of failureProb)]).
Proof.
  unfold severity_of.
  split; [|split; [|split; [|split; [|split; [|split]]]]];
    try reflexivity.
  - intros H. apply Qle_bool_iff in H. by rewrite H.
  - intros H1 H2. apply Qle_bool_iff in H1. rewrite H1.
    destruct (Qle_bool 70 failureProb) eqn:E; [|reflexivity].
    apply Qle_bool_iff in E. exfalso. by apply (Qlt_not_le _ _ H2).
  - intros H.
    destruct (Qle_bool 70 failureProb) eqn:E1.
    { apply Qle_bool_iff in E1. exfalso. apply (Qlt_not_le _ _ H).
      eapply Qle_trans; [|exact E1]. discriminate. }
    destruct (Qle_bool 40 failureProb) eqn:E2; [|reflexivity].
    apply Qle_bool_iff in E2. exfalso. by apply (Qlt_not_le _ _ H).
  - intros s k Hp Hk. eexists.
    rewrite (sendSmsAlert_severity s _ Hp).
    unfold kpi_failure_probability. simpl. rewrite Hk. reflexivity.
Qed.

Lemma sms_severity_thresholds_witness :
  severity_of 75 = "critical"
  ∧ severity_of (139 # 2) = "warning"
  ∧ severity_of (79 # 2) = "normal".
Proof.
  destruct (sms_severity_thresholds 75) as (H1 & _).
  destruct (sms_severity_thresholds (139 # 2)) as (_ & H2 & _).
  destruct (sms_severity_thresholds (79 # 2)) as (_ & _ & H3 & _).
  split; [apply H1; discriminate|].
  split; [apply H2; [discriminate | reflexivity]|].
  apply H3. reflexivity.
Defined.

End DashboardTheory.

(** ** Chat panel *)

Module ChatbotTheory.

Import Chatbot.

Ltac expose_chat :=
  repeat progress
    (unfold init_calls, calls, initializeChat_settled, handleSend,
       handleSend_settled, call, settle in *;
     simpl in * ).

(** No handler calls the initialisation collaborator: only the effect
    does. *)
Lemma init_calls_handle s e : init_calls (handle e s) = init_calls s.
Proof.
  destruct e; expose_chat; repeat (case_match; expose_chat);
    rewrite ?fmap_app, ?omap_app, ?fst_alter_settled; simpl;
    rewrite ?app_nil_r; reflexivity.
Qed.

Lemma isInitialized_handle s e :
  isInitialized s = true → isInitialized (handle e s) = true.
Proof.
  intros H. destruct e; expose_chat; repeat (case_match; expose_chat); auto.
Qed.

(** With [isInitialized] set the effect does nothing. *)
Lemma commit_initialized old new :
  isInitialized new = true → commit old new = new.
Proof.
  intros H. unfold commit, effect_init. rewrite H. simpl.
  rewrite andb_false_r. simpl. by case_match.
Qed.

Lemma step_initialized s e :
  isInitialized s = true →
  isInitialized (step s e) = true ∧ init_calls (step s e) = init_calls s.
Proof.
  intros H. unfold step.
  rewrite commit_initialized by (by apply isInitialized_handle).
  split; [by apply isInitialized_handle | apply init_calls_handle].
Qed.

(** C10.  Once [isInitialized] is set it stays set, and no sequence of events
    (toggling the panel, new props with a new prediction, messages) calls the
    chat-initialisation collaborator again: the calls made to it, and so the
    prediction the chat was initialised with, stay the same. *)
Theorem chat_initialised_once (s : State) (es : list Event) :
  isInitialized s = true →
  isInitialized (run s es) = true ∧ init_calls (run s es) = init_calls s.
Proof.
  revert s. induction es as [|e es IH]; intros s H; simpl; [auto|].
  destruct (step_initialized s e H) as [H1 H2].
  destruct (IH _ H1) as [H3 H4]. split; [exact H3 | congruence].
Qed.

Lemma chat_initialised_once_witness :
  let s := run init trace_chat_initialised in
  let s' := run s trace_chat_new_prediction in
  prediction s' = Some 1
  ∧ isOpen s' = true
  ∧ init_calls s' = [(0, Some "https://cdn.example/report-1.pdf")].
Proof.
  cbv zeta.
  assert (Hi : isInitialized (run init trace_chat_initialised) = true)
    by (vm_compute; reflexivity).
  destruct (chat_initialised_once _ trace_chat_new_prediction Hi) as [_ Hc].
  split; [vm_compute; reflexivity|].
  split; [vm_compute; reflexivity|].
  rewrite Hc. vm_compute. reflexivity.
Defined.

End ChatbotTheory.

(** ** Insight fetch *)

Module InsightsFetchTheory.

Import Insights.


Lemma commit_same_contributors (old new : State) :
  contributors new = contributors old → commit old new = new.
Proof.
  intros H. unfold commit, contributors_dep. rewrite H.
  by rewrite bool_decide_eq_true_2.
Qed.


(** While a request is loading the refresh button does nothing. *)
Lemma refresh_disabled_while_loading (s : State) :
  loadingInsights s = true → step s RefreshClick = s.
Proof.
  intros H. unfold step. simpl. rewrite H, andb_false_r.
  by apply commit_same_contributors.
Qed.




End InsightsFetchTheory.

(** ** Nearby workshops *)

Module WorkshopsTheory.

Import Workshops.

Lemma error_message_kind (code : N) :
  geolocation_error_message code
  = match error_kind code with
    | PermissionDenied =>
        "Location permission denied. Please enable location access in your browser settings."
    | PositionUnavailable =>
        "Location information unavailable. Please try again."
    | Timeout => "Location request timed out. Please try again."
    | Unknown => "An error occurred while getting your location."
    end.
Proof.
  unfold geolocation_error_message, error_kind.
  repeat case_match; reflexivity.
Qed.

Lemma error_message_truthy (code : N) :
  truthy (Some (geolocation_error_message code)) = true.
Proof. rewrite error_message_kind. by destruct (error_kind code). Qed.

Lemma step_position_error (s : State) (h : nat) (code : N) :
  awaiting h s = Some GetCurrentPosition →
  step s (PositionSettled h (inl code)) = on_position_error code (settle h s).
Proof. intros H. unfold step. by rewrite H. Qed.

Lemma retry_visible_after_error (s : State) (code : N) :
  retry_visible (on_position_error code s) = true.
Proof.
  unfold retry_visible, on_position_error.
  change (error (set_loading false (set_error ?e s))) with e.
  by rewrite error_message_truthy.
Qed.

Lemma step_retry (s : State) :
  retry_visible s = true → geolocation s = true →
  step s RetryClick = call GetCurrentPosition (set_error None (set_loading true s)).
Proof.
  intros Hv Hg. unfold step. rewrite Hv. unfold getCurrentLocation.
  change (geolocation (set_error None (set_loading true s)))
    with (geolocation s).
  by rewrite Hg.
Qed.

(** C9.  The four kinds of geolocation failure have pairwise distinct
    messages, every error code belongs to one of them, and after a failure
    the Retry button is shown and asks the browser for the position again. *)
Theorem geolocation_error_handling :
  (∀ c1 c2 : N,
      geolocation_error_message c1 = geolocation_error_message c2
      ↔ error_kind c1 = error_kind c2)
  ∧ error_kind PERMISSION_DENIED = PermissionDenied
  ∧ error_kind POSITION_UNAVAILABLE = PositionUnavailable
  ∧ error_kind TIMEOUT = Timeout
  ∧ (∀ (s : State) (h : nat) (code : N),
        geolocation s = true →
        awaiting h s = Some GetCurrentPosition →
        let s' := step s (PositionSettled h (inl code)) in
        error s' = Some (geolocation_error_message code)
        ∧ loading s' = false
        ∧ retry_visible s' = true
        ∧ error (step s' RetryClick) = None
        ∧ loading (step s' RetryClick) = true
        ∧ position_requests (step s' RetryClick) = S (position_requests s')).
Proof.
  split; [|split; [reflexivity|split; [reflexivity|split; [reflexivity|]]]].
  - intros c1 c2. rewrite !error_message_kind.
    destruct (error_kind c1), (error_kind c2); split; intros H;
      (reflexivity || discriminate).
  - intros s h code Hg Hw. cbv zeta.
    rewrite (step_position_error s h code Hw).
    rewrite step_retry by (apply retry_visible_after_error || exact Hg).
    split; [reflexivity|]. split; [reflexivity|].
    split; [apply retry_visible_after_error|].
    split; [reflexivity|]. split; [reflexivity|].
    unfold position_requests, call, on_position_error. simpl.
    rewrite fmap_app, List.filter_app, length_app. simpl. lia.
Qed.

Lemma geolocation_error_handling_witness :
  let s := run (init true) [GetLocation; PositionSettled 0 (inl TIMEOUT)] in
  geolocation_error_message TIMEOUT ≠ geolocation_error_message 7
  ∧ error s = Some "Location request timed out. Please try again."
  ∧ position_requests (step s RetryClick) = 2.
Proof.
  destruct geolocation_error_handling as (Hd & _ & _ & _ & Hr).
  cbv zeta. split.
  - intros E. apply Hd in E. vm_compute in E. discriminate E.
  - destruct (Hr (run (init true) [GetLocation]) 0 TIMEOUT)
      as (He & _ & _ & _ & _ & Hn); [reflexivity | reflexivity |].
    split; [exact He | exact Hn].
Defined.

End WorkshopsTheory.

(** ** Feature encoder *)

Module EncoderTheory.

Import Encoder.




(** C8.  The encoder's output has the length of the schema, and its i-th
    element is the telemetry value of the i-th feature when that value is
    present and within the feature's range, and the feature's default
    otherwise. *)
Theorem convertToFeatures_spec (FEATURE_DEFINITIONS : list FeatureDefinition)
    (telemetry : gmap string Q) :
  length (convertToFeatures FEATURE_DEFINITIONS telemetry)
  = length FEATURE_DEFINITIONS
  ∧ ∀ (i : nat) (f : FeatureDefinition),
      FEATURE_DEFINITIONS !! i = Some f →
      (∀ v, telemetry !! id f = Some v → in_range f v = true →
            convertToFeatures FEATURE_DEFINITIONS telemetry !! i = Some v)
      ∧ (∀ v, telemetry !! id f = Some v → in_range f v = false →
              convertToFeatures FEATURE_DEFINITIONS telemetry !! i
              = Some (default f))
      ∧ (telemetry !! id f = None →
         convertToFeatures FEATURE_DEFINITIONS telemetry !! i
         = Some (default f)).
Proof.
  unfold convertToFeatures. split; [apply length_map|].
  intros i f Hf.
  assert (E : map (encode_feature telemetry) FEATURE_DEFINITIONS !! i
              = Some (encode_feature telemetry f)).
  { change (map ?g ?l) with (g <$> l). by rewrite list_lookup_fmap, Hf. }
  rewrite E. unfold encode_feature.
  repeat split.
  - intros v Hv Hr. by rewrite Hv, Hr.
  - intros v Hv Hr. by rewrite Hv, Hr.
  - intros Hv. by rewrite Hv.
Qed.

Lemma convertToFeatures_spec_witness :
  convertToFeatures schema_example telemetry_example !! 0 = Some 105%Q
  ∧ convertToFeatures schema_example telemetry_example !! 1 = Some 40%Q
  ∧ convertToFeatures schema_example telemetry_example !! 2 = Some 2500%Q.
Proof.
  destruct (convertToFeatures_spec schema_example telemetry_example)
    as [_ H].
  split; [|split].
  - destruct (H 0 _ eq_refl) as (H1 & _). apply H1; reflexivity.
  - destruct (H 1 _ eq_refl) as (_ & H2 & _). apply (H2 500%Q); reflexivity.
  - destruct (H 2 _ eq_refl) as (_ & _ & H3). apply H3. reflexivity.
Defined.

End EncoderTheory.

(** ** parseInsights *)

Module ParseTheory.

Import Insights.

Abbreviation all_ws w := (forallb is_ws w = true).

(** *** [starts_with] and [includes] *)


(** A character that is not in the pattern blocks every match that would
    reach it. *)
Lemma starts_with_blocked (pat s x : jsstring) (c : N) :
  forallb (fun p => negb (p =? c)%N) pat = true →
  starts_with pat (s ++ c :: x) = starts_with pat s.
Proof.
  revert s; induction pat as [|p pat IH]; intros s H; simpl in *.
  - by destruct s.
  - apply andb_prop in H as [Hp H].
    destruct s as [|d s]; simpl.
    + apply negb_true_iff in Hp. by rewrite Hp.
    + by rewrite IH.
Qed.

Lemma starts_with_head (pat s : jsstring) (p c : N) :
  (p =? c)%N = false → starts_with (p :: pat) (c :: s) = false.
Proof. intros H. simpl. by rewrite H. Qed.

Lemma starts_with_length (pat s : jsstring) :
  starts_with pat s = true → length pat ≤ length s.
Proof.
  revert s; induction pat as [|p pat IH]; intros [|c s] H; simpl in *;
    try lia; try discriminate.
  apply andb_prop in H as [_ H]. apply IH in H. lia.
Qed.

(** A pattern with a character that does not occur in [s] is not included
    in [s]. *)
Lemma starts_with_occurs (pat s : jsstring) (c : N) :
  existsb (N.eqb c) pat = true → existsb (N.eqb c) s = false →
  starts_with pat s = false.
Proof.
  revert s; induction pat as [|p pat IH]; intros [|d s] Hp Hs; simpl in *;
    try discriminate; try reflexivity.
  apply orb_false_elim in Hs as [Hd Hs].
  apply orb_prop in Hp as [Hp|Hp].
  - apply N.eqb_eq in Hp. subst. by rewrite Hd.
  - rewrite (IH s Hp Hs). apply andb_false_r.
Qed.

Lemma includes_occurs (pat s : jsstring) (c : N) :
  existsb (N.eqb c) pat = true → existsb (N.eqb c) s = false →
  includes pat s = false.
Proof.
  intros Hp. induction s as [|d s IH]; intros Hs.
  - simpl. rewrite orb_false_r. by apply (starts_with_occurs _ _ c).
  - simpl. rewrite (starts_with_occurs pat (d :: s) c Hp Hs). simpl.
    simpl in Hs. apply orb_false_elim in Hs as [_ Hs]. by apply IH.
Qed.

Lemma includes_cons (pat s : jsstring) (c : N) :
  includes pat (c :: s) = false →
  starts_with pat (c :: s) = false ∧ includes pat s = false.
Proof. simpl. intros H. by apply orb_false_elim in H. Qed.

(** *** The scan of [replace] *)

Section Replace.

Variables (p0 : N) (pat' : jsstring).
Let pat := p0 :: pat'.

Lemma skip_newline_length (s : jsstring) : length (skip_newline s) ≤ length s.
Proof. destruct s as [|c s]; simpl; [lia|]. case_match; simpl; lia. Qed.

Lemma remove_all_fuel (n : nat) : ∀ (s : jsstring) (m : nat),
  length s ≤ n → length s ≤ m → remove_all pat n s = remove_all pat m s.
Proof.
  induction n as [|n IH]; intros s m Hn Hm.
  - destruct s; [|simpl in Hn; lia]. by destruct m.
  - destruct s as [|c s]; [by destruct m|].
    destruct m as [|m]; [simpl in Hm; lia|].
    simpl in Hn, Hm.
    change (remove_all pat (S n) (c :: s))
      with (if starts_with pat (c :: s)
            then remove_all pat n (skip_newline (drop (length pat) (c :: s)))
            else c :: remove_all pat n s).
    change (remove_all pat (S m) (c :: s))
      with (if starts_with pat (c :: s)
            then remove_all pat m (skip_newline (drop (length pat) (c :: s)))
            else c :: remove_all pat m s).
    destruct (starts_with pat (c :: s)).
    + assert (length (skip_newline (drop (length pat) (c :: s))) ≤ length s).
      { etrans; [apply skip_newline_length|].
        subst pat. simpl. rewrite length_drop. lia. }
      apply IH; lia.
    + f_equal. apply IH; lia.
Qed.

Lemma replace_fence_nil : replace_fence pat [] = [].
Proof. reflexivity. Qed.

Lemma replace_fence_skip (c : N) (s : jsstring) :
  starts_with pat (c :: s) = false →
  replace_fence pat (c :: s) = c :: replace_fence pat s.
Proof.
  intros H. unfold replace_fence.
  change (remove_all pat (length (c :: s)) (c :: s))
    with (if starts_with pat (c :: s)
          then remove_all pat (length s)
                 (skip_newline (drop (length pat) (c :: s)))
          else c :: remove_all pat (length s) s).
  by rewrite H.
Qed.

Lemma replace_fence_match (s : jsstring) :
  starts_with pat s = true →
  replace_fence pat s
  = replace_fence pat (skip_newline (drop (length pat) s)).
Proof.
  intros H. destruct s as [|c s]; [discriminate|].
  unfold replace_fence at 1.
  change (remove_all pat (length (c :: s)) (c :: s))
    with (if starts_with pat (c :: s)
          then remove_all pat (length s)
                 (skip_newline (drop (length pat) (c :: s)))
          else c :: remove_all pat (length s) s).
  rewrite H. apply remove_all_fuel; [|lia].
  etrans; [apply skip_newline_length|].
  subst pat. simpl. rewrite length_drop. lia.
Qed.

(** Without an occurrence of the pattern the text is unchanged. *)
Lemma replace_fence_absent (s : jsstring) :
  includes pat s = false → replace_fence pat s = s.
Proof.
  induction s as [|c s IH]; intros H; [reflexivity|].
  apply includes_cons in H as [H1 H2].
  rewrite replace_fence_skip by exact H1. f_equal. by apply IH.
Qed.

(** Whitespace before the text is kept, when the pattern starts with a
    character that is not whitespace. *)
Lemma replace_fence_ws_prefix (w s : jsstring) :
  is_ws p0 = false → all_ws w →
  replace_fence pat (w ++ s) = w ++ replace_fence pat s.
Proof.
  intros Hp. induction w as [|c w IH]; intros Hw; [reflexivity|].
  simpl in Hw. apply andb_prop in Hw as [Hc Hw]. simpl.
  rewrite replace_fence_skip.
  - f_equal. by apply IH.
  - apply starts_with_head. apply N.eqb_neq. intros ->. congruence.
Qed.

(** A suffix that no match can reach or lie in is kept, except for a line
    feed at its head, which a match at the very end of the text swallows. *)
Lemma replace_fence_app_blocked (x : jsstring) :
  includes pat x = false →
  match x with
  | c :: _ => forallb (fun p => negb (p =? c)%N) pat = true
  | [] => True
  end →
  ∀ t : jsstring,
    replace_fence pat (t ++ x) = replace_fence pat t ++ x
    ∨ replace_fence pat (t ++ x) = replace_fence pat t ++ skip_newline x.
Proof.
  intros Hx Hb t.
  remember (length t) as n eqn:Hn. revert t Hn.
  induction n as [n IH] using lt_wf_ind. intros t Hn.
  destruct t as [|c t].
  - left. simpl. by apply replace_fence_absent.
  - assert (Hsw : starts_with pat ((c :: t) ++ x) = starts_with pat (c :: t)).
    { destruct x as [|d x]; [by rewrite app_nil_r|].
      by apply starts_with_blocked. }
    destruct (starts_with pat (c :: t)) eqn:Hm.
    + rewrite (replace_fence_match _ Hsw), (replace_fence_match _ Hm).
      pose proof (starts_with_length _ _ Hm) as Hlen.
      rewrite drop_app_le by exact Hlen.
      destruct (drop (length pat) (c :: t)) as [|d t'] eqn:Hd.
      * right. simpl. apply replace_fence_absent.
        destruct x as [|e x]; [reflexivity|]. simpl.
        case_match; [|exact Hx]. by apply includes_cons in Hx as [_ Hx].
      * assert (Hl : length (d :: t') < length (c :: t)).
        { rewrite <- Hd, length_drop. subst pat. simpl. lia. }
        assert (Hs : skip_newline ((d :: t') ++ x)
                     = skip_newline (d :: t') ++ x).
        { simpl. destruct (d =? 10)%N; reflexivity. }
        rewrite Hs.
        apply (IH (length (skip_newline (d :: t')))); [|reflexivity].
        pose proof (skip_newline_length (d :: t')). lia.
    + simpl app. rewrite replace_fence_skip by exact Hsw.
      rewrite replace_fence_skip by exact Hm.
      destruct (IH (length t)) with (t := t) as [E|E];
        [simpl in Hn; lia | reflexivity | |].
      * left. by rewrite E.
      * right. by rewrite E.
Qed.

End Replace.

(** *** Whitespace *)

Lemma all_ws_absent (w : jsstring) (c : N) :
  is_ws c = false → all_ws w → existsb (N.eqb c) w = false.
Proof.
  intros Hc. induction w as [|d w IH]; intros Hw; [reflexivity|].
  simpl in *. apply andb_prop in Hw as [Hd Hw]. rewrite (IH Hw).
  destruct (N.eqb_spec c d) as [->|]; [congruence | reflexivity].
Qed.

Lemma all_ws_skip_newline (w : jsstring) : all_ws w → all_ws (skip_newline w).
Proof.
  destruct w as [|c w]; [done|]. simpl. intros H.
  apply andb_prop in H as [Hc Hw]. case_match; [exact Hw|].
  simpl. by rewrite Hc.
Qed.

Lemma all_ws_app (w1 w2 : jsstring) :
  all_ws w1 → all_ws w2 → all_ws (w1 ++ w2).
Proof. intros H1 H2. rewrite forallb_app. by rewrite H1, H2. Qed.

Lemma all_ws_rev (w : jsstring) : all_ws w → all_ws (rev w).
Proof.
  induction w as [|c w IH]; [done|]. simpl. intros H.
  apply andb_prop in H as [Hc Hw]. apply all_ws_app; [by apply IH|].
  simpl. by rewrite Hc.
Qed.

Lemma trim_start_ws (w : jsstring) : all_ws w → trim_start w = [].
Proof.
  induction w as [|c w IH]; [done|]. simpl. intros H.
  apply andb_prop in H as [Hc Hw]. rewrite Hc. by apply IH.
Qed.

Lemma trim_start_ws_prefix (w s : jsstring) :
  all_ws w → trim_start (w ++ s) = trim_start s.
Proof.
  induction w as [|c w IH]; [done|]. simpl. intros H.
  apply andb_prop in H as [Hc Hw]. rewrite Hc. by apply IH.
Qed.

Lemma trim_start_ws_suffix (s w : jsstring) :
  all_ws w →
  trim_start (s ++ w) = trim_start s ++ w
  ∨ (trim_start s = [] ∧ trim_start (s ++ w) = []).
Proof.
  intros Hw. induction s as [|c s IH].
  - right. split; [reflexivity|]. by apply trim_start_ws.
  - simpl. destruct (is_ws c); [exact IH|]. by left.
Qed.

Lemma trim_ws_prefix (w s : jsstring) : all_ws w → trim (w ++ s) = trim s.
Proof. intros H. unfold trim. by rewrite trim_start_ws_prefix. Qed.

Lemma trim_ws_suffix (s w : jsstring) : all_ws w → trim (s ++ w) = trim s.
Proof.
  intros H. unfold trim.
  destruct (trim_start_ws_suffix s w H) as [E|[E1 E2]].
  - rewrite E, rev_app_distr.
    rewrite trim_start_ws_prefix by (by apply all_ws_rev). reflexivity.
  - by rewrite E1, E2.
Qed.

(** *** The two fences *)

Lemma FENCE_eq : FENCE = [96; 96; 96]%N.
Proof. reflexivity. Qed.

Lemma FENCE_JSON_eq : FENCE_JSON = [96; 96; 96; 106; 115; 111; 110]%N.
Proof. reflexivity. Qed.

(** Whichever branch [strip_fences] takes, it computes the two replaces. *)
Lemma strip_fences_eq (s : jsstring) :
  strip_fences s = replace_fence FENCE (replace_fence FENCE_JSON s).
Proof.
  unfold strip_fences. rewrite FENCE_eq, FENCE_JSON_eq.
  destruct (includes [96; 96; 96; 106; 115; 111; 110]%N s) eqn:E1;
    [reflexivity|].
  rewrite (replace_fence_absent _ _ s E1).
  destruct (includes [96; 96; 96]%N s) eqn:E2; [reflexivity|].
  by rewrite (replace_fence_absent _ _ s E2).
Qed.





(** Whitespace after the text stays whitespace. *)
Lemma replace_fence_trailing_ws (w u : jsstring) :
  all_ws w →
  ∃ w', all_ws w' ∧ replace_fence FENCE (u ++ w) = replace_fence FENCE u ++ w'.
Proof.
  intros Hw. rewrite FENCE_eq.
  assert (Hx : includes [96; 96; 96]%N w = false).
  { apply (includes_occurs _ _ 96%N); [reflexivity|]. by apply all_ws_absent. }
  assert (Hb : match w with
               | c :: _ => forallb (fun p => negb (p =? c)%N) [96; 96; 96]%N = true
               | [] => True
               end).
  { destruct w as [|c w]; [done|].
    assert (Hc : (96 =? c)%N = false).
    { apply N.eqb_neq. intros <-. discriminate Hw. }
    cbn [forallb]. by rewrite Hc. }
  destruct (replace_fence_app_blocked _ _ w Hx Hb u) as [E|E].
  - exists w. by split.
  - exists (skip_newline w). split; [by apply all_ws_skip_newline | exact E].
Qed.




Section Claims.

Variable JSON_parse : jsstring → option json.




End Claims.


End ParseTheory.

(** * Further properties *)

(** ** Counting promises *)

Module PromisesTheory.

Import Promises.

Section Count.

Context {C : Type}.
Implicit Types (P : C → bool) (l : list (C * bool)).

Lemma issued_app P l1 l2 : issued P (l1 ++ l2) = issued P l1 + issued P l2.
Proof. unfold issued. by rewrite List.filter_app, length_app. Qed.

Lemma unsettled_app P l1 l2 :
  unsettled P (l1 ++ l2) = unsettled P l1 + unsettled P l2.
Proof. unfold unsettled. by rewrite List.filter_app, length_app. Qed.


Lemma issued_split P l : issued P l = settled P l + unsettled P l.
Proof.
  unfold issued, settled, unsettled.
  induction l as [|[c b] l IH]; [reflexivity|]. simpl.
  destruct (P c), b; simpl; lia.
Qed.

Lemma issued_fst P l : issued P l = length (List.filter P l.*1).
Proof.
  unfold issued. induction l as [|[c b] l IH]; [reflexivity|].
  change (((c, b) :: l).*1) with (c :: l.*1). simpl.
  destruct (P c); simpl; congruence.
Qed.

(** Settling a promise that was awaited moves it from the unsettled to the
    settled ones. *)
Lemma unsettled_alter P l h c :
  l !! h = Some (c, false) →
  unsettled P (alter (fun p => (p.1, true)) h l) + (if P c then 1 else 0)
  = unsettled P l.
Proof.
  unfold unsettled. revert h.
  induction l as [|[d b] l IH]; intros [|h] H; try discriminate.
  - injection H as -> ->. simpl. rewrite andb_false_r, andb_true_r.
    destruct (P c); simpl; lia.
  - simpl in H. apply IH in H.
    change (alter ?f (S h) ((d, b) :: l)) with ((d, b) :: alter f h l).
    simpl. destruct (P d && negb b); simpl; lia.
Qed.


Lemma issued_alter P l h :
  issued P (alter (fun p => (p.1, true)) h l) = issued P l.
Proof. by rewrite !issued_fst, fst_alter_settled. Qed.


End Count.

#[global] Arguments issued {C} P !l /.
#[global] Arguments unsettled {C} P !l /.
#[global] Arguments settled {C} P !l /.

End PromisesTheory.

(** ** Dashboard: requests in flight *)

Module DashboardFlight.

Import Dashboard DashboardObs Promises PromisesTheory.
Import DashboardTheory.

Lemma awaiting_lookup s h c :
  awaiting h s = Some c → promises s !! h = Some (c, false).
Proof.
  unfold awaiting. destruct (promises s !! h) as [[d []]|]; try discriminate.
  by intros [= ->].
Qed.

(** What the two effects add to the promise table: at most the start of one
    PDF generation. *)
Lemma promises_commit old new :
  promises (commit old new) = promises new
  ∨ ∃ p i, promises (commit old new) = promises new ++ [(GeneratePdf p i, false)].
Proof.
  unfold commit, effect_reset, effect_upload.
  repeat case_match; simpl; eauto.
Qed.

Lemma loading_commit old new : loading (commit old new) = loading new.
Proof. unfold commit. table; reflexivity. Qed.

Lemma emailSending_commit old new :
  emailSending (commit old new) = emailSending new.
Proof. unfold commit. table; reflexivity. Qed.

Lemma flight_inv_handle s e : flight_inv s → flight_inv (handle e s).
Proof.
  intros [Hp He]. unfold flight_inv.
  destruct e; simpl; try (split; assumption).
  - (* AnalyzeClick *)
    destruct (loading s) eqn:Hl; [rewrite Hl; by split|].
    unfold handleAnalyze, call. simpl. rewrite !unsettled_app. simpl.
    unfold b2n in *. rewrite Hp, He. split; lia.
  - (* PredictSettled *)
    destruct (awaiting h s) as [c|] eqn:Hw; [|by split].
    destruct c; try (by split).
    apply awaiting_lookup in Hw.
    pose proof (unsettled_alter is_predict _ _ _ Hw) as H1.
    pose proof (unsettled_alter is_email _ _ _ Hw) as H2.
    simpl in H1, H2.
    assert (Hl : loading s = true).
    { destruct (loading s); [reflexivity|]. unfold b2n in Hp. lia. }
    rewrite Hl in Hp. unfold b2n in Hp.
    unfold handleAnalyze_settled, sendSmsAlert, call, settle.
    destruct r as [[] [d|]|m]; simpl; repeat case_match; simpl;
      rewrite ?unsettled_app; simpl; unfold b2n in *; split; lia.
  - (* SmsSettled *)
    destruct (awaiting h s) as [c|] eqn:Hw; [|by split].
    destruct c; try (by split).
    apply awaiting_lookup in Hw.
    pose proof (unsettled_alter is_predict _ _ _ Hw) as H1.
    pose proof (unsettled_alter is_email _ _ _ Hw) as H2.
    simpl in H1, H2.
    unfold sendSmsAlert_settled, settle.
    destruct r as [[] m|m]; simpl; split; lia.
  - (* PdfSettled *)
    destruct (awaiting h s) as [c|] eqn:Hw; [|by split].
    destruct c; try (by split).
    apply awaiting_lookup in Hw.
    pose proof (unsettled_alter is_predict _ _ _ Hw) as H1.
    pose proof (unsettled_alter is_email _ _ _ Hw) as H2.
    simpl in H1, H2.
    unfold uploadPDF_blob, call, settle.
    destruct ok; simpl; rewrite ?unsettled_app; simpl; split; lia.
  - (* UploadSettled *)
    destruct (awaiting h s) as [c|] eqn:Hw; [|by split].
    destruct c; try (by split).
    apply awaiting_lookup in Hw.
    pose proof (unsettled_alter is_predict _ _ _ Hw) as H1.
    pose proof (unsettled_alter is_email _ _ _ Hw) as H2.
    simpl in H1, H2.
    unfold uploadPDF_settled, settle.
    destruct r as [[] u|]; simpl; split; lia.
  - (* EmailClick *)
    destruct (email_button_enabled s) eqn:Hen; [|by split].
    apply email_button_enabled_inv in Hen as (_ & Hs & _).
    unfold handleSendEmail.
    destruct (url (pdfUploadStatus s)) as [u|]; [|by split].
    destruct (truthy (Some u)); [|by split].
    unfold call. simpl. rewrite !unsettled_app. simpl.
    rewrite Hs in He. unfold b2n in *. split; lia.
  - (* EmailSettled *)
    destruct (awaiting h s) as [c|] eqn:Hw; [|by split].
    destruct c; try (by split).
    apply awaiting_lookup in Hw.
    pose proof (unsettled_alter is_predict _ _ _ Hw) as H1.
    pose proof (unsettled_alter is_email _ _ _ Hw) as H2.
    simpl in H1, H2.
    assert (Hl : emailSending s = true).
    { destruct (emailSending s); [reflexivity|]. unfold b2n in He. lia. }
    rewrite Hl in He. unfold b2n in He.
    unfold handleSendEmail_settled, settle.
    destruct r as [[] m|m]; simpl; unfold b2n in *; split; lia.
Qed.

Lemma flight_inv_step s e : flight_inv s → flight_inv (step s e).
Proof.
  intros H. apply (flight_inv_handle s e) in H. destruct H as [Hp He].
  unfold step, flight_inv.
  rewrite loading_commit, emailSending_commit.
  destruct (promises_commit s (handle e s)) as [-> | (p & i & ->)];
    [by split|].
  rewrite !unsettled_app. simpl. split; lia.
Qed.

Lemma flight_inv_run es : ∀ s, flight_inv s → flight_inv (run s es).
Proof.
  induction es as [|e es IH]; intros s H; [exact H|].
  simpl. apply IH. by apply flight_inv_step.
Qed.

Lemma flight_inv_init : flight_inv init.
Proof. by split. Qed.

(** X1.  However the user clicks and whatever settles, at most one
    prediction call is in flight: exactly one while [loading] is set, none
    otherwise. *)
Theorem one_prediction_in_flight (es : list Event) :
  unsettled is_predict (promises (run init es))
  = (if loading (run init es) then 1 else 0).
Proof. apply (flight_inv_run es init flight_inv_init). Qed.

(** X2.  At most one e-mail call is in flight: exactly one while
    [emailSending] is set, none otherwise. *)
Theorem one_email_in_flight (es : list Event) :
  unsettled is_email (promises (run init es))
  = (if emailSending (run init es) then 1 else 0).
Proof. apply (flight_inv_run es init flight_inv_init). Qed.

(** *** SMS alerts *)








(** *** The upload pipeline *)

Lemma status_shape_handle s e :
  status_shape (pdfUploadStatus s) → status_shape (pdfUploadStatus (handle e s)).
Proof.
  intros H. destruct e; simpl; try exact H.
  - destruct (loading s); exact H.
  - destruct (awaiting h s) as [[]|]; try exact H.
    unfold handleAnalyze_settled, sendSmsAlert.
    destruct r as [[] [d|]|m]; simpl; repeat case_match; exact H.
  - destruct (awaiting h s) as [[]|]; try exact H.
    destruct r as [[] m|m]; exact H.
  - destruct (awaiting h s) as [[]|]; try exact H.
    destruct ok; [exact H | by left].
  - destruct (awaiting h s) as [[]|]; try exact H.
    destruct r as [[] u|]; simpl; [right; right; by eexists | by left | by left].
  - destruct (email_button_enabled s); [|exact H].
    unfold handleSendEmail.
    destruct (url (pdfUploadStatus s)) as [u|]; [|exact H].
    destruct (truthy (Some u)); exact H.
  - destruct (awaiting h s) as [[]|]; try exact H.
    destruct r as [[] m|m]; exact H.
Qed.

Lemma status_shape_commit old new :
  status_shape (pdfUploadStatus new) →
  status_shape (pdfUploadStatus (commit old new)).
Proof.
  intros H. unfold commit, effect_reset, effect_upload.
  repeat case_match; simpl; try exact H; try (by left); right; by left.
Qed.

(** X4.  The upload state always has one of three shapes: nothing
    (initial), uploading, or uploaded with the URL the upload answered; so
    "uploading" and "uploaded" are never shown together and a URL is kept
    only in the uploaded state. *)
Theorem upload_status_shape (es : list Event) :
  status_shape (pdfUploadStatus (run init es))
  ∧ (uploading (pdfUploadStatus (run init es))
     && uploaded (pdfUploadStatus (run init es)) = false)
  ∧ (uploaded (pdfUploadStatus (run init es)) = false →
     url (pdfUploadStatus (run init es)) = None).
Proof.
  assert (H : status_shape (pdfUploadStatus (run init es))).
  { induction es as [|e es IH] using rev_ind; [by left|].
    rewrite run_snoc. unfold step.
    by apply status_shape_commit, status_shape_handle. }
  split; [exact H|].
  destruct H as [-> | [-> | [u ->]]]; simpl; split; try done.
Qed.

Lemma upload_status_shape_witness :
  url (pdfUploadStatus
         (run init (trace_first_cycle
                    ++ [AnalyzeClick;
                        PredictSettled 4 (PredictResult true (data_with 50 40))])))
  = None.
Proof.
  destruct (upload_status_shape
              (trace_first_cycle
               ++ [AnalyzeClick;
                   PredictSettled 4 (PredictResult true (data_with 50 40))]))
    as (_ & _ & H).
  apply H. vm_compute. reflexivity.
Defined.

Lemma pipeline_handle p s e :
  issued (is_upload_of p) (promises s)
  + unsettled (is_generate_of p) (promises s)
  ≤ issued (is_generate_of p) (promises s) →
  issued (is_upload_of p) (promises (handle e s))
  + unsettled (is_generate_of p) (promises (handle e s))
  ≤ issued (is_generate_of p) (promises (handle e s)).
Proof.
  intros H.
  assert (Hs : ∀ h c, awaiting h s = Some c →
               unsettled (is_generate_of p)
                 (alter (fun q => (q.1, true)) h (promises s))
               + (if is_generate_of p c then 1 else 0)
               = unsettled (is_generate_of p) (promises s)).
  { intros h c Hw. apply unsettled_alter. by apply awaiting_lookup. }
  destruct e; simpl; try exact H.
  - destruct (loading s); [exact H|].
    unfold handleAnalyze, call. simpl.
    rewrite !issued_app, unsettled_app. simpl. lia.
  - destruct (awaiting h s) as [c|] eqn:Hw; [|exact H].
    destruct c; try exact H. specialize (Hs _ _ Hw). simpl in Hs.
    unfold handleAnalyze_settled, sendSmsAlert, call, settle.
    destruct r as [[] [d|]|m]; simpl; repeat case_match; simpl;
      rewrite ?issued_app, ?unsettled_app, ?issued_alter; simpl; lia.
  - destruct (awaiting h s) as [c|] eqn:Hw; [|exact H].
    destruct c; try exact H. specialize (Hs _ _ Hw). simpl in Hs.
    unfold sendSmsAlert_settled, settle.
    destruct r as [[] m|m]; simpl; rewrite ?issued_alter; lia.
  - destruct (awaiting h s) as [c|] eqn:Hw; [|exact H].
    destruct c; try exact H. specialize (Hs _ _ Hw). simpl in Hs.
    unfold uploadPDF_blob, call, settle.
    destruct ok; simpl;
      rewrite ?issued_app, ?unsettled_app, ?issued_alter; simpl;
      destruct (p =? pred); simpl in *; lia.
  - destruct (awaiting h s) as [c|] eqn:Hw; [|exact H].
    destruct c; try exact H. specialize (Hs _ _ Hw). simpl in Hs.
    unfold uploadPDF_settled, settle.
    destruct r as [[] u|]; simpl; rewrite ?issued_alter; lia.
  - destruct (email_button_enabled s); [|exact H].
    unfold handleSendEmail.
    destruct (url (pdfUploadStatus s)) as [u|]; [|exact H].
    destruct (truthy (Some u)); [|exact H].
    unfold call. simpl. rewrite !issued_app, unsettled_app. simpl. lia.
  - destruct (awaiting h s) as [c|] eqn:Hw; [|exact H].
    destruct c; try exact H. specialize (Hs _ _ Hw). simpl in Hs.
    unfold handleSendEmail_settled, settle.
    destruct r as [[] m|m]; simpl; rewrite ?issued_alter; lia.
Qed.

Lemma pipeline_step p s e :
  issued (is_upload_of p) (promises s)
  + unsettled (is_generate_of p) (promises s)
  ≤ issued (is_generate_of p) (promises s) →
  issued (is_upload_of p) (promises (step s e))
  + unsettled (is_generate_of p) (promises (step s e))
  ≤ issued (is_generate_of p) (promises (step s e)).
Proof.
  intros H. apply (pipeline_handle p s e) in H. unfold step.
  destruct (promises_commit s (handle e s)) as [-> | (q & i & ->)];
    [exact H|].
  rewrite !issued_app, unsettled_app. simpl.
  destruct (p =? q); simpl in *; lia.
Qed.

(** X5.  The upload collaborator is called only after a PDF generation for
    the same prediction: for every prediction there are never more upload
    calls than generations started. *)
Theorem upload_follows_generation (es : list Event) (p : nat) :
  uploads_of p (run init es) ≤ generations_of p (run init es).
Proof.
  unfold uploads_of, generations_of, calls.
  rewrite <- !issued_fst.
  assert (H : issued (is_upload_of p) (promises (run init es))
              + unsettled (is_generate_of p) (promises (run init es))
              ≤ issued (is_generate_of p) (promises (run init es))).
  { induction es as [|e es IH] using rev_ind; [simpl; lia|].
    rewrite run_snoc. by apply pipeline_step. }
  lia.
Qed.

(** X6.  A failed upload is not retried: when the PDF rendering fails, or
    the upload answers without success or throws, the upload state returns
    to initial while the guard stays as it was; with the guard set, no
    sequence of insight updates makes another call. *)
Theorem failed_upload_not_retried (s : State) (e : Event) :
  upload_failure e s →
  pdfUploadStatus (step s e) = status_initial
  ∧ pdfUploadTriggered (step s e) = pdfUploadTriggered s
  ∧ calls (step s e) = calls s
  ∧ (pdfUploadTriggered s = true →
     ∀ vs, calls (run (step s e) (map AIInsightsUpdate vs)) = calls s).
Proof.
  intros Hf.
  assert (Hh : pdfUploadStatus (handle e s) = status_initial
               ∧ pdfUploadTriggered (handle e s) = pdfUploadTriggered s
               ∧ calls (handle e s) = calls s
               ∧ aiInsights (handle e s) = aiInsights s
               ∧ prediction (handle e s) = prediction s).
  { destruct e as [| | | | | |h [] |h [[] u|] | |]; simpl in Hf;
      try contradiction.
    - destruct Hf as (p & i & Hw). simpl. rewrite Hw.
      repeat split. apply fst_alter_settled.
    - destruct Hf as (p & Hw). simpl. rewrite Hw.
      repeat split. apply fst_alter_settled.
    - destruct Hf as (p & Hw). simpl. rewrite Hw.
      repeat split. apply fst_alter_settled. }
  destruct Hh as (H1 & H2 & H3 & H4 & H5).
  assert (Hc : step s e = handle e s).
  { unfold step, commit, kpis_dep, prediction_dep. rewrite H4, H5.
    by rewrite !bool_decide_eq_true_2. }
  rewrite Hc. repeat split; try assumption.
  intros Ht vs. rewrite insights_updates_after_trigger by congruence.
  exact H3.
Qed.

Lemma failed_upload_not_retried_witness :
  let s := run init (take 4 trace_first_cycle) in
  let s' := step s (UploadSettled 2 UploadThrew) in
  pdfUploadStatus s' = status_initial
  ∧ calls (run s' (map AIInsightsUpdate [Some "insights-1b"; Some "insights-1c"]))
    = calls s.
Proof.
  cbv zeta.
  destruct (failed_upload_not_retried (run init (take 4 trace_first_cycle))
              (UploadSettled 2 UploadThrew)) as (H1 & _ & _ & H4).
  - exists 0. vm_compute. reflexivity.
  - split; [exact H1|]. apply H4. vm_compute. reflexivity.
Defined.

End DashboardFlight.

(** ** [trim] *)

Module TrimTheory.

Import ParseTheory.

Lemma trim_start_suffix (s : jsstring) :
  ∃ w, all_ws w ∧ s = w ++ trim_start s.
Proof.
  induction s as [|c s (w & Hw & E)]; [by exists []|].
  simpl. destruct (is_ws c) eqn:Hc.
  - exists (c :: w). simpl. rewrite Hc, Hw. split; [done | by f_equal].
  - by exists [].
Qed.

Lemma trim_start_head (s r : jsstring) (c : N) :
  trim_start s = c :: r → is_ws c = false.
Proof.
  induction s as [|d s IH]; [discriminate|]. simpl.
  destruct (is_ws d) eqn:Hd; [exact IH|]. by intros [= <- _].
Qed.

Lemma trim_start_fixed (s : jsstring) :
  match s with
  | c :: _ => is_ws c = false
  | [] => True
  end → trim_start s = s.
Proof. destruct s as [|c s]; [done|]. simpl. by intros ->. Qed.

(** Trimming leaves nothing to trim. *)
Lemma trim_idem (s : jsstring) : trim (trim s) = trim s.
Proof.
  unfold trim.
  set (a := trim_start s).
  destruct (trim_start (rev a)) as [|c b] eqn:Hb; [reflexivity|].
  pose proof (trim_start_head _ _ _ Hb) as Hc.
  destruct (trim_start_suffix (rev a)) as (w & Hw & E). rewrite Hb in E.
  assert (Ea : a = rev (c :: b) ++ rev w).
  { rewrite <- (rev_involutive a), E. by rewrite rev_app_distr. }
  (* the trimmed text starts where [a] starts, and [a] does not start with
     whitespace *)
  assert (Hh : trim_start (rev (c :: b)) = rev (c :: b)).
  { apply trim_start_fixed.
    destruct (rev (c :: b)) as [|d r] eqn:Hr; [done|].
    unfold a in Ea. simpl in Ea. by apply trim_start_head in Ea. }
  rewrite Hh, rev_involutive.
  rewrite trim_start_fixed by exact Hc. reflexivity.
Qed.

End TrimTheory.

(** ** Chat panel: calls and messages *)

Module ChatbotMore.

Import Chatbot ChatbotObs Promises PromisesTheory.
Import ChatbotTheory.

Lemma chat_awaiting_lookup s h c :
  awaiting h s = Some c → promises s !! h = Some (c, false).
Proof.
  unfold awaiting. destruct (promises s !! h) as [[d []]|]; try discriminate.
  by intros [= ->].
Qed.

Lemma init_calls_app_call s c :
  init_calls (call c s)
  = init_calls s ++ match c with
                    | InitializeChatbot p u => [(p, u)]
                    | _ => []
                    end.
Proof.
  unfold init_calls, calls, call. simpl. rewrite fmap_app, omap_app.
  by destruct c.
Qed.

(** X7.  The chat is initialised only by the effect, and only with the
    panel open, [isReady] set and a prediction present; the call carries the
    prediction and the PDF URL the component has at that moment. *)
Theorem chat_init_gate (s : State) (e : Event) :
  init_calls (step s e) ≠ init_calls s →
  isOpen (step s e) = true
  ∧ isReady (step s e) = true
  ∧ isInitialized (step s e) = false
  ∧ isInitializing (handle e s) = false
  ∧ ∃ p, prediction (step s e) = Some p
         ∧ init_calls (step s e) = init_calls s ++ [(p, pdfUrl (step s e))].
Proof.
  intros Hne. unfold step, commit in *.
  destruct (_ && _ && _ && _) eqn:Hd.
  { exfalso. apply Hne. apply init_calls_handle. }
  unfold effect_init in *.
  destruct (isOpen (handle e s) && _ && _ && _ && _) eqn:Hg.
  2: { exfalso. apply Hne. apply init_calls_handle. }
  apply andb_prop in Hg as [Hg Hing]. apply andb_prop in Hg as [Hg Hini].
  apply andb_prop in Hg as [Hg Hpred]. apply andb_prop in Hg as [Ho Hr].
  apply negb_true_iff in Hing, Hini.
  unfold initializeChat in *.
  destruct (prediction (handle e s)) as [p|] eqn:Hp.
  2: { exfalso. apply Hne. apply init_calls_handle. }
  repeat split; try assumption. exists p. split; [exact Hp|].
  rewrite init_calls_app_call.
  change (init_calls (set_isInitializing true (handle e s)))
    with (init_calls (handle e s)).
  by rewrite init_calls_handle.
Qed.

Lemma chat_init_gate_witness :
  let s := run init [Props (Some 0) (Some "https://cdn.example/report-1.pdf") true] in
  init_calls (step s Toggle) = [(0, Some "https://cdn.example/report-1.pdf")].
Proof.
  cbv zeta.
  destruct (chat_init_gate
              (run init [Props (Some 0) (Some "https://cdn.example/report-1.pdf") true])
              Toggle) as (_ & _ & _ & _ & p & Hp & E).
  - vm_compute. discriminate.
  - rewrite E. vm_compute in Hp. injection Hp as <-. vm_compute. reflexivity.
Defined.

Lemma chat_flight_inv_handle s e : flight_inv s → flight_inv (handle e s).
Proof.
  intros [Hi Hc]. unfold flight_inv.
  destruct e; simpl; try (split; assumption).
  - destruct (isReady s); by split.
  - destruct (_ && _ && _); by split.
  - destruct (_ && _ && _) eqn:Hg; [|by split].
    unfold handleSend.
    destruct (trim (inputValue s)) as [|c m]; [by split|].
    destruct (isSending s) eqn:Hs; [rewrite ?Hs; by split|].
    unfold call. simpl. rewrite !unsettled_app. simpl.
    rewrite ?Hs in *. unfold b2n in *. split; lia.
  - destruct (awaiting h s) as [c|] eqn:Hw; [|by split].
    destruct c; try (by split).
    apply chat_awaiting_lookup in Hw.
    pose proof (unsettled_alter is_init _ _ _ Hw) as H1.
    pose proof (unsettled_alter is_chat _ _ _ Hw) as H2.
    simpl in H1, H2.
    assert (Hl : isInitializing s = true).
    { destruct (isInitializing s); [reflexivity|]. unfold b2n in Hi. lia. }
    rewrite Hl in Hi.
    unfold initializeChat_settled, settle.
    destruct r as [[] g|]; simpl; unfold b2n in *; split; lia.
  - destruct (awaiting h s) as [c|] eqn:Hw; [|by split].
    destruct c; try (by split).
    apply chat_awaiting_lookup in Hw.
    pose proof (unsettled_alter is_init _ _ _ Hw) as H1.
    pose proof (unsettled_alter is_chat _ _ _ Hw) as H2.
    simpl in H1, H2.
    assert (Hl : isSending s = true).
    { destruct (isSending s); [reflexivity|]. unfold b2n in Hc. lia. }
    rewrite Hl in Hc.
    unfold handleSend_settled, settle. simpl. unfold b2n in *. split; lia.
Qed.

Lemma chat_flight_inv_commit old new : flight_inv new → flight_inv (commit old new).
Proof.
  intros [Hi Hc]. unfold commit, effect_init.
  destruct (_ && _ && _ && _); [by split|].
  destruct (isOpen new && isReady new && _ && _ && _) eqn:Hg; [|by split].
  apply andb_prop in Hg as [_ Hg]. apply negb_true_iff in Hg.
  unfold initializeChat. destruct (prediction new); [|by split].
  unfold flight_inv, call. simpl. rewrite !unsettled_app. simpl.
  rewrite Hg in Hi. unfold b2n in *. split; lia.
Qed.

(** X8.  At most one initialisation call and at most one chat message are
    in flight at any time: exactly one while [isInitializing],
    respectively [isSending], is set, and none otherwise. *)
Theorem chat_one_in_flight (es : list Event) :
  unsettled is_init (promises (run init es))
  = (if isInitializing (run init es) then 1 else 0)
  ∧ unsettled is_chat (promises (run init es))
    = (if isSending (run init es) then 1 else 0).
Proof.
  change (flight_inv (run init es)).
  induction es as [|e es IH] using rev_ind; [by split|].
  unfold run. rewrite fold_left_app. simpl.
  by apply chat_flight_inv_commit, chat_flight_inv_handle.
Qed.

Lemma chat_messages_commit old new :
  chat_messages (commit old new) = chat_messages new.
Proof.
  unfold commit, effect_init, initializeChat.
  repeat case_match; try reflexivity.
  unfold chat_messages, calls, call. simpl.
  rewrite fmap_app, omap_app. simpl. by rewrite app_nil_r.
Qed.

Lemma chat_messages_handle s e :
  chat_messages (handle e s) = chat_messages s
  ∨ ∃ m, m = trim (inputValue s) ∧ m ≠ []
         ∧ chat_messages (handle e s) = chat_messages s ++ [m].
Proof.
  destruct e; simpl; try (by left).
  - left. by destruct (isReady s).
  - left. by destruct (_ && _ && _).
  - destruct (_ && _ && _); [|by left].
    unfold handleSend.
    destruct (trim (inputValue s)) as [|c m] eqn:Ht; [by left|].
    destruct (isSending s); [by left|].
    right. exists (c :: m). repeat split; [done|].
    unfold chat_messages, calls, call. simpl.
    by rewrite fmap_app, omap_app.
  - left. destruct (awaiting h s) as [[]|]; try reflexivity.
    unfold chat_messages, calls, initializeChat_settled, settle.
    destruct r as [[] g|]; simpl; by rewrite fst_alter_settled.
  - left. destruct (awaiting h s) as [[]|]; try reflexivity.
    unfold chat_messages, calls, handleSend_settled, settle. simpl.
    by rewrite fst_alter_settled.
Qed.

(** X9.  Every text sent to the chat collaborator is non-empty and has no
    whitespace at its ends: blank input is never sent, and what is sent is
    the trimmed input. *)
Theorem chat_messages_trimmed (es : list Event) (m : jsstring) :
  m ∈ chat_messages (run init es) → m ≠ [] ∧ trim m = m.
Proof.
  induction es as [|e es IH] using rev_ind.
  - intros H. by apply elem_of_nil in H.
  - unfold run. rewrite fold_left_app. simpl. fold (run init es).
    unfold step. rewrite chat_messages_commit.
    destruct (chat_messages_handle (run init es) e) as [->|(m' & E & Hne & ->)];
      [exact IH|].
    intros H. apply elem_of_app in H as [H|H]; [by apply IH|].
    apply list_elem_of_singleton in H as ->.
    split; [exact Hne|]. rewrite E. apply TrimTheory.trim_idem.
Qed.

Lemma chat_messages_trimmed_witness :
  trim (js "How long until service?")
  = js "How long until service?".
Proof.
  apply (chat_messages_trimmed
           [Props (Some 0) None true; Toggle; InitSettled 0 InitThrew;
            InputChange (js "  How long until service? "); Send]).
  vm_compute. apply list_elem_of_here.
Defined.

End ChatbotMore.

(** ** Insight panel: what a fetch changes *)

Module InsightsMore.

Import Insights InsightsObs InsightsFetchTheory.

Lemma commit_aiInsights old new :
  aiInsights (commit old new) = aiInsights new.
Proof.
  unfold commit, effect_fetch, fetchAIInsights.
  repeat case_match; reflexivity.
Qed.

Lemma handle_aiInsights s e :
  aiInsights (handle e s) = aiInsights s
  ∨ ∃ h i m, e = InsightsSettled h (InsightsResult true (Some i) m)
             ∧ i ≠ [] ∧ aiInsights (handle e s) = Some i.
Proof.
  destruct e; simpl; try (by left).
  - left. unfold fetchAIInsights. repeat case_match; reflexivity.
  - left. by case_match.
  - destruct (awaiting h s) as [[]|]; [|by left].
    destruct r as [[] [[|c i]|] m|m]; try (by left).
    right. exists h, (c :: i), m. by repeat split.
Qed.

(** X10.  The applied insights change only when a request settles with
    success and a non-empty text, which then replaces them; a failed fetch,
    a refresh or new props never clear them. *)
Theorem insights_replaced_only_by_success (s : State) :
  (∀ e, aiInsights (step s e) ≠ aiInsights s →
        ∃ h i m, e = InsightsSettled h (InsightsResult true (Some i) m)
                 ∧ i ≠ [] ∧ aiInsights (step s e) = Some i)
  ∧ (∀ es, is_Some (aiInsights s) → is_Some (aiInsights (run s es))).
Proof.
  split.
  - intros e Hne. unfold step in *. rewrite commit_aiInsights in *.
    destruct (handle_aiInsights s e) as [E|H]; [contradiction | exact H].
  - intros es. revert s. induction es as [|e es IH]; intros s Hs; [exact Hs|].
    simpl. apply IH. unfold step. rewrite commit_aiInsights.
    destruct (handle_aiInsights s e) as [-> | (h & i & m & _ & _ & ->)];
      [exact Hs | by eexists].
Qed.

Lemma insights_replaced_only_by_success_witness :
  let s := run two_in_flight [InsightsSettled 1 (ok (js "second"))] in
  is_Some (aiInsights
             (run s [RefreshClick;
                     InsightsSettled 0 (InsightsThrew (Some "timeout"));
                     PropsChange None])).
Proof.
  cbv zeta.
  destruct (insights_replaced_only_by_success
              (run two_in_flight [InsightsSettled 1 (ok (js "second"))]))
    as [_ H].
  apply H. vm_compute. by eexists.
Defined.

Lemma calls_fetch s :
  (promises (fetchAIInsights s)).*1 = (promises s).*1
  ∨ ∃ c, contributors s = Some c ∧ Nat.eqb (length (items c)) 0 = false
         ∧ (promises (fetchAIInsights s)).*1
           = (promises s).*1 ++ [GetAIInsights (contributors_id c)].
Proof.
  unfold fetchAIInsights.
  destruct (contributors s) as [c|] eqn:Hc; [|by left].
  destruct (items c) as [|x xs] eqn:Hi; [by left|].
  right. exists c. rewrite Hi. split; [done|]. split; [reflexivity|].
  simpl. by rewrite fmap_app.
Qed.

(** X11.  Insights are requested only for a non-empty contributors array,
    the one the component holds at that moment; with no contributors the
    component requests nothing, also when it is mounted or refreshed. *)
Theorem insights_requested_for_contributors (s : State) (e : Event) :
  (promises (step s e)).*1 = (promises s).*1
  ∨ ∃ c, contributors (step s e) = Some c ∧ Nat.eqb (length (items c)) 0 = false
         ∧ (promises (step s e)).*1
           = (promises s).*1 ++ [GetAIInsights (contributors_id c)].
Proof.
  unfold step, commit, effect_fetch.
  assert (Hsame : ∀ s', contributors (fetchAIInsights s') = contributors s').
  { intros s'. unfold fetchAIInsights.
    repeat case_match; simpl; congruence. }
  destruct e; simpl.
  - (* new props: the effect may fetch *)
    case_bool_decide; [by left|].
    destruct (has_contributors _); [|by left].
    destruct (calls_fetch (set_contributors contributors0 s))
      as [E|(c & Hc & Hi & E)]; [by left|].
    right. exists c. by rewrite Hsame.
  - (* refresh *)
    destruct (has_contributors s && negb (loadingInsights s)).
    + rewrite bool_decide_eq_true_2
        by (unfold contributors_dep; by rewrite Hsame).
      destruct (calls_fetch s) as [E|(c & Hc & Hi & E)]; [by left|].
      right. exists c. by rewrite Hsame.
    + rewrite bool_decide_eq_true_2 by reflexivity. by left.
  - left. destruct (has_contributors s);
      by rewrite bool_decide_eq_true_2 by reflexivity.
  - left. destruct (awaiting h s) as [[]|];
      [|by rewrite bool_decide_eq_true_2 by reflexivity].
    rewrite bool_decide_eq_true_2.
    + unfold fetchAIInsights_settled, settle.
      repeat case_match; simpl; apply fst_alter_settled.
    + unfold fetchAIInsights_settled. by repeat case_match.
Qed.

Section View.

Variable JSON_parse : jsstring → option json.

(** X12.  After a failed fetch the panel shows the failure message, never
    an empty one, in place of any cards shown before. *)
Theorem failed_fetch_shows_error (s : State) (h : nat) (c : Call)
    (r : InsightsOutcome) :
  has_contributors s = true →
  awaiting h s = Some c →
  fetch_failed r →
  ∃ message, message ≠ ""
             ∧ render JSON_parse (step s (InsightsSettled h r))
               = ViewError message
             ∧ aiInsights (step s (InsightsSettled h r)) = aiInsights s.
Proof.
  intros Hc Hw Hf.
  set (message := match r with
                  | InsightsResult _ _ m =>
                      or_default m "Failed to generate insights"
                  | InsightsThrew m =>
                      or_default m "Failed to fetch AI insights"
                  end).
  assert (Hs : step s (InsightsSettled h r)
               = set_loadingInsights false
                   (set_insightsError (Some message) (settle h s))).
  { unfold step. simpl. rewrite Hw. destruct c.
    rewrite commit_same_contributors.
    - destruct r as [[] [[|x i]|] m|m]; try reflexivity. destruct Hf.
    - unfold fetchAIInsights_settled. by repeat case_match. }
  assert (Ht : truthy (Some message) = true).
  { unfold message.
    destruct r; by apply DashboardTheory.or_default_truthy. }
  exists message. rewrite Hs. repeat split.
  - by apply DashboardTheory.truthy_nonempty.
  - unfold render.
    change (has_contributors (set_loadingInsights false
              (set_insightsError (Some message) (settle h s))))
      with (has_contributors s).
    rewrite Hc.
    cbn [negb loadingInsights insightsError set_loadingInsights
         set_insightsError].
    by rewrite Ht.
Qed.


End View.

Lemma failed_fetch_shows_error_witness :
  let s := run two_in_flight [InsightsSettled 1 (ok JsonRef.card_text)] in
  render JsonRef.JSON_parse
    (step s (InsightsSettled 0 (InsightsResult false None None)))
  = ViewError "Failed to generate insights".
Proof.
  cbv zeta.
  destruct (failed_fetch_shows_error JsonRef.JSON_parse
              (run two_in_flight [InsightsSettled 1 (ok JsonRef.card_text)])
              0 (GetAIInsights 0) (InsightsResult false None None))
    as (m & _ & E & _).
  - vm_compute. reflexivity.
  - vm_compute. reflexivity.
  - exact I.
  - rewrite E. vm_compute in E. by injection E as <-.
Defined.

End InsightsMore.

(** ** parseInsights: what the cleaning leaves *)

Module ParseMore.

Import Insights ParseTheory.

(** A character kept in front of a text whose fences are gone does not
    complete a fence. *)
Lemma starts_with_fence_cons (c : N) (r : jsstring) :
  starts_with [96; 96; 96]%N (c :: r) = false →
  starts_with [96; 96; 96]%N (c :: replace_fence [96; 96; 96]%N r) = false.
Proof.
  intros H.
  destruct (N.eqb_spec 96 c) as [<-|Hc].
  2: { apply starts_with_head. by apply N.eqb_neq. }
  destruct r as [|d r]; [reflexivity|].
  destruct (N.eqb_spec 96 d) as [<-|Hd].
  2: { rewrite replace_fence_skip
         by (apply starts_with_head; by apply N.eqb_neq).
       cbn [starts_with]. rewrite (proj2 (N.eqb_neq 96 d) Hd).
       by rewrite andb_false_r. }
  destruct r as [|x r].
  { reflexivity. }
  destruct (N.eqb_spec 96 x) as [<-|Hx]; [discriminate H|].
  assert (H1 : starts_with [96; 96; 96]%N (96 :: x :: r)%N = false).
  { cbn [starts_with]. rewrite (proj2 (N.eqb_neq 96 x) Hx).
    by rewrite andb_false_r. }
  rewrite (replace_fence_skip _ _ _ _ H1).
  rewrite replace_fence_skip
    by (apply starts_with_head; by apply N.eqb_neq).
  cbn [starts_with]. rewrite (proj2 (N.eqb_neq 96 x) Hx).
  by rewrite !andb_false_r.
Qed.

(** The second replace leaves no fence behind. *)
Lemma replace_fence_no_fence (s : jsstring) :
  includes [96; 96; 96]%N (replace_fence [96; 96; 96]%N s) = false.
Proof.
  remember (length s) as n eqn:Hn. revert s Hn.
  induction n as [n IH] using lt_wf_ind. intros s Hn.
  destruct s as [|c r]; [reflexivity|].
  destruct (starts_with [96; 96; 96]%N (c :: r)) eqn:Hm.
  - rewrite (replace_fence_match _ _ _ Hm).
    apply (IH (length (skip_newline (drop 3 (c :: r))))); [|reflexivity].
    pose proof (skip_newline_length (drop 3 (c :: r))) as Hl.
    rewrite length_drop in Hl. simpl in *. lia.
  - rewrite (replace_fence_skip _ _ _ _ Hm).
    cbn [includes]. rewrite (starts_with_fence_cons _ _ Hm). simpl.
    apply (IH (length r)); [simpl in Hn; lia | reflexivity].
Qed.

Lemma includes_prefix (pat q s : jsstring) :
  includes pat s = false → includes (pat ++ q) s = false.
Proof.
  assert (Hs : ∀ s, starts_with pat s = false →
                    starts_with (pat ++ q) s = false).
  { induction pat as [|p pat IHp]; intros [|c t] H; simpl in *;
      try discriminate; try reflexivity.
    destruct (p =? c)%N; [|reflexivity]. simpl in *. by apply IHp. }
  induction s as [|c s IH]; intros H.
  - simpl in *. apply orb_false_elim in H as [H _]. by rewrite Hs.
  - apply includes_cons in H as [H1 H2]. cbn [includes].
    by rewrite Hs, IH.
Qed.

(** X14.  After the cleaning no fence is left in the text, so cleaning a
    cleaned text changes nothing. *)
Theorem strip_fences_leaves_no_fence (s : jsstring) :
  includes FENCE (strip_fences s) = false
  ∧ includes FENCE_JSON (strip_fences s) = false
  ∧ strip_fences (strip_fences s) = strip_fences s.
Proof.
  assert (H : includes FENCE (strip_fences s) = false).
  { rewrite strip_fences_eq, FENCE_eq. apply replace_fence_no_fence. }
  assert (H' : includes FENCE_JSON (strip_fences s) = false).
  { rewrite FENCE_JSON_eq, FENCE_eq in *.
    by apply (includes_prefix [96; 96; 96]%N [106; 115; 111; 110]%N). }
  repeat split; try assumption.
  unfold strip_fences at 1. by rewrite H', H.
Qed.

Lemma ws_blocks_fence_json (w : jsstring) :
  all_ws w →
  match w with
  | c :: _ =>
      forallb (fun p => negb (p =? c)%N) [96; 96; 96; 106; 115; 111; 110]%N
      = true
  | [] => True
  end.
Proof.
  destruct w as [|c w]; [done|]. intros Hw.
  assert (Hc : is_ws c = true) by (simpl in Hw; by apply andb_prop in Hw as [? _]).
  assert (Hne : ∀ p, is_ws p = false → negb (p =? c)%N = true).
  { intros p Hp. apply negb_true_iff, N.eqb_neq. intros ->. congruence. }
  cbn [forallb]. by rewrite !Hne.
Qed.

Section Whitespace.

Variable JSON_parse : jsstring → option json.

(** X15.  Whitespace before and after the insight text never changes the
    parse result, fenced or not. *)
Theorem parseInsights_ignores_outer_whitespace (t ws1 ws2 : jsstring) :
  all_ws ws1 → all_ws ws2 →
  parseInsights JSON_parse (ws1 ++ t ++ ws2) = parseInsights JSON_parse t.
Proof.
  intros H1 H2. unfold parseInsights.
  assert (E : ∃ w', all_ws w'
                    ∧ strip_fences (ws1 ++ t ++ ws2)
                      = ws1 ++ strip_fences t ++ w').
  { assert (Hx : includes FENCE_JSON ws2 = false).
    { apply (includes_occurs _ _ 96%N); [reflexivity|].
      by apply all_ws_absent. }
    assert (E1 : ∃ x, all_ws x
                      ∧ replace_fence FENCE_JSON (t ++ ws2)
                        = replace_fence FENCE_JSON t ++ x).
    { rewrite FENCE_JSON_eq in *.
      destruct (replace_fence_app_blocked _ _ ws2 Hx
                  (ws_blocks_fence_json ws2 H2) t) as [E|E].
      - by exists ws2.
      - exists (skip_newline ws2). split; [by apply all_ws_skip_newline|].
        exact E. }
    destruct E1 as (x & Hxw & E1).
    destruct (replace_fence_trailing_ws x (replace_fence FENCE_JSON t) Hxw)
      as (w' & Hw' & E2).
    exists w'. split; [exact Hw'|].
    rewrite !strip_fences_eq.
    rewrite FENCE_JSON_eq at 1.
    rewrite replace_fence_ws_prefix by (reflexivity || exact H1).
    rewrite FENCE_eq at 1.
    rewrite replace_fence_ws_prefix by (reflexivity || exact H1).
    rewrite <- FENCE_eq, <- FENCE_JSON_eq.
    by rewrite E1, E2. }
  destruct E as (w' & Hw' & ->).
  rewrite trim_ws_prefix by exact H1.
  by rewrite trim_ws_suffix by exact Hw'.
Qed.

End Whitespace.

Lemma parseInsights_ignores_outer_whitespace_witness :
  parseInsights JsonRef.JSON_parse
    (js "  " ++ JsonRef.card_text ++ [10; 32]%N)
  = parseInsights JsonRef.JSON_parse JsonRef.card_text.
Proof.
  apply parseInsights_ignores_outer_whitespace; reflexivity.
Defined.

End ParseMore.

(** ** Report colours *)

Module ReportTheory.

Import Report.

(** X16.  The colour of the failure card of the PDF report follows the
    severity of the SMS alert for the same prediction: red exactly for
    "critical", orange exactly for "warning", green exactly for "normal". *)
Theorem failure_colour_matches_severity (d : Dashboard.PredictionData) :
  let v := Dashboard.kpi_failure_probability d in
  let c := color (getKPIConfig "failure" (failure_card_value d)) in
  (c = "#ef4444" ↔ Dashboard.severity_of v = "critical")
  ∧ (c = "#f97316" ↔ Dashboard.severity_of v = "warning")
  ∧ (c = "#22c55e" ↔ Dashboard.severity_of v = "normal").
Proof.
  cbv zeta.
  change (failure_card_value d) with (Dashboard.kpi_failure_probability d).
  unfold getKPIConfig, Dashboard.severity_of.
  change ("failure" =? "failure")%string with true. cbv iota.
  destruct (Qle_bool 70 _); [|destruct (Qle_bool 40 _)];
    repeat split; intros H; (reflexivity || discriminate H).
Qed.

(** X17.  The health card of the report and the bars of the components use
    the same colour for the same score. *)
Theorem health_colour_matches_component (score : Q) :
  color (getKPIConfig "health" score) = getComponentColor score.
Proof.
  unfold getKPIConfig, getComponentColor.
  change ("health" =? "failure")%string with false.
  change ("health" =? "rul")%string with false.
  change ("health" =? "anomaly")%string with false.
  change ("health" =? "health")%string with true. cbv iota.
  by destruct (Qle_bool 80 score), (Qle_bool 50 score).
Qed.

End ReportTheory.

(** ** Messages of failed requests *)

Module ApiTheory.

Import Api.

Lemma or_default_twice (m : option string) (fb fb' : string) :
  fb ≠ "" → or_default (Some (or_default m fb)) fb' = or_default m fb.
Proof.
  intros H. unfold or_default at 1.
  fold (rejection m fb).
  unfold rejection.
  by rewrite (DashboardTheory.or_default_truthy m fb H).
Qed.

Lemma error_commit old new :
  Dashboard.error (Dashboard.commit old new) = Dashboard.error new.
Proof. unfold Dashboard.commit. DashboardTheory.table; reflexivity. Qed.

Lemma smsStatus_commit old new :
  Dashboard.smsStatus (Dashboard.commit old new) = Dashboard.smsStatus new.
Proof. unfold Dashboard.commit. DashboardTheory.table; reflexivity. Qed.

(** X18.  When a request fails in the API layer, the text the user sees is
    the one of the server's answer or, without one, the fixed text of the
    API wrapper; the fallback texts of the components themselves never
    appear for such a failure. *)
Theorem rejected_request_message (m : option string) :
  (∀ s h, Dashboard.awaiting h s = Some Dashboard.Predict →
          Dashboard.error
            (Dashboard.step s
               (Dashboard.PredictSettled h
                  (Dashboard.PredictThrew (predictVehicleHealth_error m))))
          = Some (or_default m "Failed to get prediction"))
  ∧ (∀ s h p f r v,
        Dashboard.awaiting h s = Some (Dashboard.SendAlert p f r v) →
        Dashboard.smsStatus
          (Dashboard.step s
             (Dashboard.SmsSettled h (SendThrew (sendAlert_error m))))
        = {| Dashboard.open := true; Dashboard.success := false;
             Dashboard.message := or_default m "Failed to send alert" |})
  ∧ (∀ s h c, Insights.awaiting h s = Some c →
              Insights.insightsError
                (Insights.step s
                   (Insights.InsightsSettled h
                      (Insights.InsightsThrew (getAIInsights_error m))))
              = Some (or_default m "Failed to get AI insights"))
  ∧ (∀ s h lat lng r,
        Workshops.awaiting h s = Some (Workshops.GetServiceCenters lat lng r) →
        Workshops.error
          (Workshops.step s
             (Workshops.CentersSettled h
                (Workshops.CentersThrew (getServiceCenters_error m))))
        = Some (or_default m "Failed to load service centers")).
Proof.
  split; [|split; [|split]].
  - intros s h Hw. unfold Dashboard.step.
    assert (Hh : Dashboard.handle
                   (Dashboard.PredictSettled h
                      (Dashboard.PredictThrew (predictVehicleHealth_error m))) s
                 = Dashboard.set_loading false
                     (Dashboard.set_error
                        (Some (or_default (predictVehicleHealth_error m)
                                 "An error occurred while analyzing vehicle health."))
                        (Dashboard.settle h s))).
    { simpl. by rewrite Hw. }
    rewrite error_commit, Hh.
    cbn [Dashboard.error Dashboard.set_loading Dashboard.set_error].
    unfold predictVehicleHealth_error, rejection.
    by rewrite or_default_twice.
  - intros s h p f r v Hw. unfold Dashboard.step.
    assert (Hh : Dashboard.handle
                   (Dashboard.SmsSettled h (SendThrew (sendAlert_error m))) s
                 = Dashboard.set_smsStatus
                     {| Dashboard.open := true; Dashboard.success := false;
                        Dashboard.message :=
                          or_default (sendAlert_error m)
                            "Failed to send SMS alert" |}
                     (Dashboard.settle h s)).
    { simpl. by rewrite Hw. }
    rewrite smsStatus_commit, Hh.
    cbn [Dashboard.smsStatus Dashboard.set_smsStatus].
    unfold sendAlert_error, rejection.
    by rewrite or_default_twice.
  - intros s h c Hw. unfold Insights.step.
    assert (Hh : Insights.handle
                   (Insights.InsightsSettled h
                      (Insights.InsightsThrew (getAIInsights_error m))) s
                 = Insights.set_loadingInsights false
                     (Insights.set_insightsError
                        (Some (or_default (getAIInsights_error m)
                                 "Failed to fetch AI insights"))
                        (Insights.settle h s))).
    { destruct c. cbn [Insights.handle]. rewrite Hw. reflexivity. }
    rewrite Hh.
    rewrite InsightsFetchTheory.commit_same_contributors by reflexivity.
    cbn [Insights.insightsError Insights.set_loadingInsights
         Insights.set_insightsError].
    unfold getAIInsights_error, rejection.
    by rewrite or_default_twice.
  - intros s h lat lng r Hw.
    assert (Hh : Workshops.step s
                   (Workshops.CentersSettled h
                      (Workshops.CentersThrew (getServiceCenters_error m)))
                 = Workshops.set_loading false
                     (Workshops.set_error
                        (Some (or_default (getServiceCenters_error m)
                                 "Failed to load nearby workshops"))
                        (Workshops.settle h s))).
    { simpl. by rewrite Hw. }
    rewrite Hh.
    cbn [Workshops.error Workshops.set_loading Workshops.set_error].
    unfold getServiceCenters_error, rejection.
    by rewrite or_default_twice.
Qed.

Lemma rejected_request_message_witness :
  let s := Dashboard.run Dashboard.init [Dashboard.AnalyzeClick] in
  Dashboard.error
    (Dashboard.step s
       (Dashboard.PredictSettled 0
          (Dashboard.PredictThrew (predictVehicleHealth_error None))))
  = Some "Failed to get prediction".
Proof.
  cbv zeta.
  destruct (rejected_request_message None) as (H & _).
  rewrite H; reflexivity.
Defined.

End ApiTheory.

(** ** Nearby workshops: requests and results *)

Module WorkshopsMore.

Import Workshops.

Lemma position_requests_settle (s : State) (h : nat) :
  position_requests (settle h s) = position_requests s.
Proof. unfold position_requests, settle. simpl. by rewrite fst_alter_settled. Qed.

Lemma unsupported_step (s : State) (e : Event) :
  geolocation s = false →
  geolocation (step s e) = false
  ∧ position_requests (step s e) = position_requests s.
Proof.
  intros Hg.
  assert (Hl : geolocation (getCurrentLocation s) = false
               ∧ position_requests (getCurrentLocation s)
                 = position_requests s).
  { unfold getCurrentLocation. simpl. by rewrite Hg. }
  destruct e; simpl.
  - exact Hl.
  - by destruct (retry_visible s).
  - destruct (awaiting h s) as [[]|]; try done.
    destruct r as [code|[lat lng]]; simpl; split; try done.
    + apply position_requests_settle.
    + unfold position_requests, on_position, call, settle. simpl.
      rewrite fmap_app, List.filter_app, length_app, fst_alter_settled.
      simpl. lia.
  - destruct (awaiting h s) as [[]|]; try done.
    destruct r as [[] cs|m]; simpl; split; try done;
      apply position_requests_settle.
Qed.

(** X19.  In a browser without geolocation the component never asks for the
    position, whatever the user clicks: a request for the location only sets
    the "not supported" message and ends loading. *)
Theorem unsupported_browser_never_asks (s : State) :
  geolocation s = false →
  (∀ es, position_requests (run s es) = position_requests s)
  ∧ error (step s GetLocation)
    = Some "Geolocation is not supported by your browser"
  ∧ loading (step s GetLocation) = false.
Proof.
  intros Hg. split.
  - intros es. revert s Hg. induction es as [|e es IH]; intros s Hg;
      [reflexivity|].
    destruct (unsupported_step s e Hg) as [H1 H2].
    simpl. rewrite (IH _ H1). exact H2.
  - simpl. unfold getCurrentLocation. simpl. by rewrite Hg.
Qed.

Lemma unsupported_browser_never_asks_witness :
  position_requests
    (run (init false) [GetLocation; RetryClick; RetryClick; GetLocation])
  = 0.
Proof.
  destruct (unsupported_browser_never_asks (init false)) as [H _];
    [reflexivity|].
  apply H.
Defined.

(** X20.  Once the position has arrived, the search for service centers is
    made for that position with a radius of 15000; whatever the search
    answers, loading ends and the position is kept.  A successful answer
    replaces the list (by the empty list when the answer carries none); a
    failed one keeps the previous list and sets a non-empty error. *)
Theorem centers_after_position (s : State) (h : nat) (lat lng : Q)
    (r : CentersOutcome) :
  awaiting h s = Some GetCurrentPosition →
  let s1 := step s (PositionSettled h (inr (lat, lng))) in
  let h1 := length (promises s) in
  let s2 := step s1 (CentersSettled h1 r) in
  awaiting h1 s1 = Some (GetServiceCenters lat lng 15000)
  ∧ loading s2 = false
  ∧ userLocation s2 = Some (lat, lng)
  ∧ match r with
    | CentersResult true cs =>
        serviceCenters s2 = default [] cs ∧ error s2 = error s
    | _ => serviceCenters s2 = serviceCenters s ∧ truthy (error s2) = true
    end.
Proof.
  intros Hw. cbv zeta.
  assert (Hs1 : step s (PositionSettled h (inr (lat, lng)))
                = on_position lat lng (settle h s)).
  { simpl. by rewrite Hw. }
  rewrite Hs1.
  assert (Hw1 : awaiting (length (promises s)) (on_position lat lng (settle h s))
                = Some (GetServiceCenters lat lng 15000)).
  { unfold awaiting, on_position, call, settle. simpl.
    rewrite lookup_app_r by (by rewrite length_alter).
    by rewrite length_alter, Nat.sub_diag. }
  split; [exact Hw1|].
  assert (Hs2 : step (on_position lat lng (settle h s))
                  (CentersSettled (length (promises s)) r)
                = on_centers r (settle (length (promises s))
                                  (on_position lat lng (settle h s)))).
  { cbn [step]. by rewrite Hw1. }
  rewrite Hs2.
  destruct r as [[] cs|m]; simpl; repeat split.
  by apply DashboardTheory.or_default_truthy.
Qed.

Lemma centers_after_position_witness :
  let s2 := run (init true)
              [GetLocation; PositionSettled 0 (inr (19 # 1, 73 # 1));
               CentersSettled 1 (CentersResult true None)] in
  loading s2 = false ∧ userLocation s2 = Some (19 # 1, 73 # 1)
  ∧ serviceCenters s2 = [].
Proof.
  cbv zeta.
  destruct (centers_after_position (run (init true) [GetLocation]) 0
              (19 # 1) (73 # 1) (CentersResult true None))
    as (_ & H1 & H2 & H3 & _); [reflexivity|].
  split; [exact H1|]. split; [exact H2 | exact H3].
Defined.

End WorkshopsMore.

(** ** The collapsible workshops card *)

Module WorkshopsCardTheory.

Import WorkshopsCard.

Lemma locationRequested_step (s : State) (e : Event) :
  locationRequested s = true → locationRequested (step s e) = true.
Proof.
  intros H. destruct e as [|[]]; simpl; try exact H; try reflexivity.
  - unfold handleToggleExpand. rewrite H, andb_false_r. reflexivity.
  - by destruct (Workshops.retry_visible (core s)).
Qed.

Lemma toggle_requested (s : State) :
  locationRequested s = true → core (step s ToggleExpand) = core s.
Proof.
  intros H. simpl. unfold handleToggleExpand. by rewrite H, andb_false_r.
Qed.

Lemma toggles_requested (n : nat) : ∀ s,
  locationRequested s = true → core (run s (repeat ToggleExpand n)) = core s.
Proof.
  induction n as [|n IH]; intros s H; [reflexivity|].
  change (run s (repeat ToggleExpand (S n)))
    with (run (step s ToggleExpand) (repeat ToggleExpand n)).
  rewrite IH by (by apply locationRequested_step).
  by apply toggle_requested.
Qed.

(** X21.  Expanding the card asks for the location only the first time:
    once a location has been requested, by the card or by a button, the flag
    stays set and no amount of collapsing and expanding asks again. *)
Theorem expand_requests_location_once :
  (∀ s es, locationRequested s = true → locationRequested (run s es) = true)
  ∧ (∀ s n, locationRequested s = true →
            core (run s (repeat ToggleExpand n)) = core s)
  ∧ (∀ supported n,
        Workshops.position_requests
          (core (run (init supported) (repeat ToggleExpand n)))
        = if supported && negb (Nat.eqb n 0) then 1 else 0).
Proof.
  split; [|split].
  - intros s es. revert s. induction es as [|e es IH]; intros s H; [exact H|].
    simpl. apply IH. by apply locationRequested_step.
  - intros s n H. by apply toggles_requested.
  - intros supported [|n]; [by rewrite andb_false_r|].
    simpl repeat. simpl run. rewrite toggles_requested by reflexivity.
    by destruct supported.
Qed.

Lemma expand_requests_location_once_witness :
  core (run (step (init true) ToggleExpand) (repeat ToggleExpand 4))
  = core (step (init true) ToggleExpand).
Proof.
  destruct expand_requests_location_once as (_ & H & _).
  apply H. reflexivity.
Defined.

End WorkshopsCardTheory.

(** ** Initial telemetry *)

Module TelemetryTheory.

Import Encoder EncoderTheory.



End TelemetryTheory.

(** ** Chat panel: a failed initialisation *)

Module ChatbotRetry.

Import Chatbot.

Lemma commit_same_deps old new :
  isOpen old = isOpen new → isReady old = isReady new →
  prediction old = prediction new → isInitialized old = isInitialized new →
  commit old new = new.
Proof.
  intros H1 H2 H3 H4. unfold commit.
  by rewrite !bool_decide_eq_true_2.
Qed.

(** X23.  An initialisation that fails is not repeated by itself: the
    greeting of the failure replaces the messages, [isInitialized] keeps its
    value and no call is made.  It is repeated when the panel is closed and
    opened again, with the prediction and the PDF URL of that moment. *)
Theorem failed_init_retried_on_reopen :
  (∀ s h p u r,
      awaiting h s = Some (InitializeChatbot p u) →
      match r with InitResult true _ => False | _ => True end →
      let s1 := step s (InitSettled h r) in
      init_calls s1 = init_calls s
      ∧ isInitialized s1 = isInitialized s
      ∧ isInitializing s1 = false
      ∧ ∃ m, messages s1 = [m] ∧ role m = "bot")
  ∧ (∀ s q,
        isOpen s = true → isReady s = true → prediction s = Some q →
        isInitialized s = false → isInitializing s = false →
        init_calls (step s Toggle) = init_calls s
        ∧ init_calls (step (step s Toggle) Toggle)
          = init_calls s ++ [(q, pdfUrl s)]).
Proof.
  split.
  - intros s h p u r Hw Hr. cbv zeta.
    assert (Hh : handle (InitSettled h r) s
                 = initializeChat_settled r (settle h s)).
    { cbn [handle]. by rewrite Hw. }
    assert (Hc : step s (InitSettled h r)
                 = initializeChat_settled r (settle h s)).
    { unfold step. rewrite Hh.
      apply commit_same_deps; destruct r as [[] g|]; try destruct Hr;
        reflexivity. }
    rewrite Hc. split; [|split; [|split]].
    + rewrite <- Hh. apply ChatbotTheory.init_calls_handle.
    + destruct r as [[] g|]; [destruct Hr| |]; reflexivity.
    + reflexivity.
    + destruct r as [[] g|]; [destruct Hr| |]; eexists; split; reflexivity.
  - intros s q Ho Hr Hp Hi Hz.
    assert (H1 : step s Toggle = set_isOpen false s).
    { unfold step. cbn [handle]. rewrite Hr, Ho. simpl negb.
      unfold commit, effect_init. simpl.
      rewrite Ho. simpl. reflexivity. }
    assert (H2 : step (set_isOpen false s) Toggle
                 = call (InitializeChatbot q (pdfUrl s))
                     (set_isInitializing true (set_isOpen true s))).
    { unfold step. cbn [handle]. simpl. rewrite Hr. 
      unfold commit, effect_init, initializeChat. simpl.
      rewrite Hr, Hp, Hi, Hz. simpl.
      rewrite ?bool_decide_eq_true_2 by (by eexists). reflexivity. }
    rewrite H1, H2. split; [reflexivity|].
    rewrite ChatbotMore.init_calls_app_call. reflexivity.
Qed.

Lemma failed_init_retried_on_reopen_witness :
  init_calls
    (run init [Props (Some 0) (Some "https://cdn.example/report-1.pdf") true;
               Toggle; InitSettled 0 InitThrew; Toggle; Toggle])
  = [(0, Some "https://cdn.example/report-1.pdf");
     (0, Some "https://cdn.example/report-1.pdf")].
Proof.
  exact (proj2 (proj2 failed_init_retried_on_reopen
                  (run init
                     [Props (Some 0) (Some "https://cdn.example/report-1.pdf")
                        true;
                      Toggle; InitSettled 0 InitThrew]) 0
                  eq_refl eq_refl eq_refl eq_refl eq_refl)).
Defined.

End ChatbotRetry.
